(** * A document scanner: camera capture, image enhancement, OCR, and the
      single-flight web controller that drives them.

    The development embeds the three Python modules of the repository

      - [scanner.py]        (module [Scanner]),
      - [ocr_processor.py]  (module [OcrProcessor]),
      - [app.py]            (modules [App] and [Server]),

    over a small model of the Python constructs they use: exceptions,
    [return] inside [try]/[finally], function-local variables that a
    [finally] block reads, module globals, dictionaries. *)

From Stdlib Require Import ZArith Ascii String List Bool Lia.
From stdpp Require Import base list strings pretty gmap.

Local Open Scope Z_scope.

(* ===================================================================== *)
(** * Python: exceptions, completions, statements                          *)
(* ===================================================================== *)

Module Py.

(** The exception classes that occur.  All of them derive from
    [Exception]: an [except Exception] clause (and a bare [except:])
    catches every one of them. *)
Inductive exn_class : Set :=
| NameError
| TypeError
| OSError
| CvError                    (* cv2.error *)
| TesseractNotFoundError     (* pytesseract.TesseractNotFoundError *)
| TesseractError             (* pytesseract.TesseractError *)
| RuntimeError.

(** An exception object: its class and [str(e)]. *)
Record exn : Set := Exn { exn_cls : exn_class; exn_str : string }.

Definition exn_class_eqb (a b : exn_class) : bool :=
  match a, b with
  | NameError, NameError | TypeError, TypeError | OSError, OSError
  | CvError, CvError | TesseractNotFoundError, TesseractNotFoundError
  | TesseractError, TesseractError | RuntimeError, RuntimeError => true
  | _, _ => false
  end.

(** What a call into a library gives back: a value or an exception. *)
Inductive outcome (A : Type) : Type :=
| Val (a : A)
| Exc (e : exn).
Arguments Val {A} a.
Arguments Exc {A} e.

(** How a statement completes: control falls through to the next
    statement, a [return r] is unwinding the function body, or an
    exception is unwinding it. *)
Inductive completion (R A : Type) : Type :=
| Next (a : A)
| Return (r : R)
| Raise (e : exn).
Arguments Next {R A} a.
Arguments Return {R A} r.
Arguments Raise {R A} e.

(** A statement (or expression) over a store [S], inside a function whose
    [return] carries an [R]. *)
Definition M (S R A : Type) : Type := S -> completion R A * S.

Definition ret {S R A} (a : A) : M S R A := fun s => (Next a, s).

Definition bind {S R A B} (m : M S R A) (k : A -> M S R B) : M S R B :=
  fun s =>
    match m s with
    | (Next a, s1) => k a s1
    | (Return r, s1) => (Return r, s1)
    | (Raise e, s1) => (Raise e, s1)
    end.

(** [return r] *)
Definition return_ {S R A} (r : R) : M S R A := fun s => (Return r, s).

(** [raise e] *)
Definition raise {S R A} (e : exn) : M S R A := fun s => (Raise e, s).

Definition gets {S R A} (f : S -> A) : M S R A := fun s => (Next (f s), s).
Definition modify {S R} (f : S -> S) : M S R unit := fun s => (Next tt, f s).

(** The result of a call into a library, as an expression. *)
Definition of_outcome {S R A} (o : outcome A) : M S R A :=
  fun s => match o with Val a => (Next a, s) | Exc e => (Raise e, s) end.

(** [if c: body] with no [else]. *)
Definition when {S R} (c : bool) (body : M S R unit) : M S R unit :=
  if c then body else ret tt.

(** One [except] clause: which exceptions it matches, and its body. *)
Definition clause (S R A : Type) : Type := (exn -> bool) * (exn -> M S R A).

(** [except Exception as e: h e] and the bare [except: h]. *)
Definition except_Exception {S R A} (h : exn -> M S R A) : clause S R A :=
  (fun _ => true, h).

(** [except C as e: h e] for one class [C]. *)
Definition except_class {S R A} (c : exn_class) (h : exn -> M S R A)
  : clause S R A :=
  (fun e => exn_class_eqb (exn_cls e) c, h).

Fixpoint dispatch {S R A} (cls : list (clause S R A)) (e : exn) : M S R A :=
  match cls with
  | [] => raise e
  | (p, h) :: rest => if p e then h e else dispatch rest e
  end.

(** [try: body  except ...: ...  except ...: ...].  The first clause that
    matches handles the exception; an exception raised by a handler is not
    offered to the sibling clauses. *)
Definition try_except {S R A} (body : M S R A) (cls : list (clause S R A))
  : M S R A :=
  fun s =>
    match body s with
    | (Raise e, s1) => dispatch cls e s1
    | other => other
    end.

(** The [finally] block [fin], entered with the completion [c] of the
    [try] part pending: when [fin] falls through, [c] stands; a [return] or
    an exception in [fin] replaces it. *)
Definition finally_ {S R A} (c : completion R A) (fin : M S R unit)
  : M S R A :=
  fun s =>
    match fin s with
    | (Next _, s1) => (c, s1)
    | (Return r, s1) => (Return r, s1)
    | (Raise e, s1) => (Raise e, s1)
    end.

(** [try: body  finally: fin].  [fin] runs however [body] completes. *)
Definition try_finally {S R A} (body : M S R A) (fin : M S R unit)
  : M S R A :=
  fun s => match body s with (c, s1) => finally_ c fin s1 end.

(** [for x in xs: body x] *)
Fixpoint for_in {S R X} (xs : list X) (body : X -> M S R unit) : M S R unit :=
  match xs with
  | [] => ret tt
  | x :: rest => bind (body x) (fun _ => for_in rest body)
  end.

(** [range(n)] *)
Definition range (n : nat) : list nat := seq 0 n.

(** A function over a store [S]: called, it gives a value or raises. *)
Definition F (S A : Type) : Type := S -> outcome A * S.

(** [def f(...): body].  A [return r] in the body is the value of the call,
    falling off the end returns [dflt] (Python's [None]), an exception
    leaves the call. *)
Definition def {S R : Type} (dflt : R) (body : M S R unit) : F S R :=
  fun s =>
    match body s with
    | (Next _, s1) => (Val dflt, s1)
    | (Return r, s1) => (Val r, s1)
    | (Raise e, s1) => (Exc e, s1)
    end.

(** [def f(...): body] for a body that cannot fall off its end (every path
    returns or raises), which its type says. *)
Definition def_total {S R : Type} (body : M S R Empty_set) : F S R :=
  fun s =>
    match body s with
    | (Next a, s1) => match a with end
    | (Return r, s1) => (Val r, s1)
    | (Raise e, s1) => (Exc e, s1)
    end.

(** The call expression [f(...)]. *)
Definition invoke {S R A} (f : F S A) : M S R A :=
  fun s => match f s with (Val a, s1) => (Next a, s1) | (Exc e, s1) => (Raise e, s1) end.

(** A function body with local variables [L] that a [finally] block reads:
    the locals live in the store next to the outer store while the body
    runs. *)
Definition with_locals {S L R A} (init : L) (body : M (L * S) R A) : M S R A :=
  fun s => match body (init, s) with (c, (_, s1)) => (c, s1) end.

(** A statement on the outer store, run inside a body with locals. *)
Definition outer {S L R A} (m : M S R A) : M (L * S) R A :=
  fun ls => match m (snd ls) with (c, s1) => (c, (fst ls, s1)) end.

Definition get_local {S L R} : M (L * S) R L := gets fst.
Definition set_local {S L R} (l : L) : M (L * S) R unit :=
  modify (fun ls => (l, snd ls)).

(** Python values that are stored in dictionaries and sent as JSON.  A
    [float] read from the clock is an opaque instant. *)
Inductive pyval : Type :=
| VNone
| VBool (b : bool)
| VStr (s : string)
| VFloat (t : Z)
| VTuple (xs : list Z).

(** Truth value of an optional string ([None] and [""] are falsy). *)
Definition truthy (o : option string) : bool :=
  match o with
  | Some (String _ _) => true
  | _ => false
  end.

(** [a or b] on (optional) strings. *)
Definition str_or (a : option string) (b : string) : string :=
  match a with
  | Some (String c s) => String c s
  | _ => b
  end.

(** [str.isspace] on one character.  Characters are the code points below
    256; the white space among them is TAB..CR, FS..US, space, NEL and
    NBSP. *)
Definition isspace (c : ascii) : bool :=
  let n := nat_of_ascii c in
  ((9 <=? n) && (n <=? 13) || (28 <=? n) && (n <=? 32)
   || (n =? 133) || (n =? 160))%nat.

Fixpoint lstrip (s : string) : string :=
  match s with
  | EmptyString => EmptyString
  | String c rest => if isspace c then lstrip rest else s
  end.

(** Drops trailing white space: a character is kept when it is not white
    space or something is kept after it. *)
Fixpoint rstrip (s : string) : string :=
  match s with
  | EmptyString => EmptyString
  | String c rest =>
      match rstrip rest with
      | EmptyString => if isspace c then EmptyString else String c EmptyString
      | kept => String c kept
      end
  end.

(** [s.strip()] *)
Definition strip (s : string) : string := rstrip (lstrip s).

End Py.

Declare Scope py_scope.
Delimit Scope py_scope with py.
Notation "x <- m ; k" := (Py.bind m (fun x => k))
  (at level 20, m at level 100, k at level 200, only parsing) : py_scope.
Notation "m >> k" := (Py.bind m (fun _ => k))
  (at level 100, k at level 200, right associativity, only parsing) : py_scope.

Local Open Scope py_scope.

(* ===================================================================== *)
(** * The environment: libraries, camera devices, file system, clock       *)
(* ===================================================================== *)

Module Env.
Import Py.

(** A [numpy] array: its shape and its elements in row-major order. *)
Record ndarray : Type := NdArray { shape : list nat; data : list Z }.

(** A [PIL] image: its mode (['L'], ['RGB'], ...) and its pixels. *)
Record PILImage : Type := PIL { mode : string; pixels : ndarray }.

(** What the third-party libraries do; each call may raise.  Nothing is
    assumed about them beyond the one operation that is modelled in full,
    [cv2.threshold] with [THRESH_BINARY] (see [Scanner.cv2_threshold]). *)
Record Libs : Type := {
  (* cv2.cvtColor(img, cv2.COLOR_BGR2GRAY) *)
  cvtColor_BGR2GRAY : ndarray -> outcome ndarray;
  (* cv2.GaussianBlur(img, ksize, sigmaX) *)
  GaussianBlur : ndarray -> nat * nat -> Z -> outcome ndarray;
  (* cv2.createCLAHE(clipLimit, tileGridSize).apply(img) *)
  CLAHE_apply : Z -> nat * nat -> ndarray -> outcome ndarray;
  (* the threshold that THRESH_OTSU selects for an image *)
  otsu : ndarray -> outcome Z;
  (* cv2.threshold for the types other than THRESH_BINARY *)
  threshold_other : Z -> ndarray -> Z -> Z -> outcome ndarray;
  (* whether cv2.imwrite manages to encode and write *)
  imwrite_result : string -> ndarray -> outcome bool;
  (* PIL.Image.open on the content of a file *)
  Image_open : ndarray -> outcome PILImage;
  (* img.convert(mode) *)
  Image_convert : PILImage -> string -> outcome PILImage;
  (* pytesseract.image_to_string(img, lang=, config=) *)
  image_to_string : PILImage -> string -> string -> outcome string
}.

(** A camera device: whether it can be opened, what its successive reads
    give ([(ret, frame)] or an exception; [(False, None)] once the list is
    used up), the properties requested of it, and whether a handle on it is
    open. *)
Record Camera : Type := {
  cam_opens : bool;
  cam_reads : list (outcome (bool * option ndarray));
  cam_props : list (Z * Z);
  cam_held : bool
}.

(** [cv2.VideoCapture] objects. *)
Record VideoCapture : Type := Cap { cap_index : Z; cap_opened : bool }.

Record World : Type := {
  clock : Z;                       (* what time.time() reads *)
  files : gmap string ndarray;     (* the files that exist, with their image *)
  undeletable : gset string;       (* paths on which os.remove fails *)
  cameras : gmap Z Camera;         (* the devices, by index *)
  tempdir : string;                (* tempfile.gettempdir() *)
  now_stamp : string               (* datetime.now().strftime("%Y%m%d_%H%M%S") *)
}.

Definition set_files (f : gmap string ndarray) (w : World) : World :=
  {| clock := clock w; files := f; undeletable := undeletable w;
     cameras := cameras w; tempdir := tempdir w; now_stamp := now_stamp w |}.

Definition set_cameras (c : gmap Z Camera) (w : World) : World :=
  {| clock := clock w; files := files w; undeletable := undeletable w;
     cameras := c; tempdir := tempdir w; now_stamp := now_stamp w |}.

Definition set_undeletable (u : gset string) (w : World) : World :=
  {| clock := clock w; files := files w; undeletable := u;
     cameras := cameras w; tempdir := tempdir w; now_stamp := now_stamp w |}.

Definition update_camera (i : Z) (f : Camera -> Camera) (w : World) : World :=
  set_cameras (alter f i (cameras w)) w.

Definition CAP_PROP_FRAME_WIDTH : Z := 3.
Definition CAP_PROP_FRAME_HEIGHT : Z := 4.

Section Primitives.
Context {R : Type}.

(** Looking a name up in a module's globals. *)
Definition load_global {S} (G : list string) (name : string) : M S R unit :=
  if bool_decide (name ∈ G) then ret tt
  else raise (Exn NameError ("name '" +:+ name +:+ "' is not defined")).

(** [cv2.VideoCapture(i)]: the object exists in any case; it is opened
    when the device exists and opens. *)
Definition VideoCapture_new (i : Z) : M World R VideoCapture :=
  fun w =>
    match cameras w !! i with
    | Some cam =>
        if cam_opens cam
        then (Next (Cap i true),
              update_camera i (fun c =>
                {| cam_opens := cam_opens c; cam_reads := cam_reads c;
                   cam_props := cam_props c; cam_held := true |}) w)
        else (Next (Cap i false), w)
    | None => (Next (Cap i false), w)
    end.

(** [cap.set(prop, value)]: a request, which the device may not honour. *)
Definition cap_set (cap : VideoCapture) (prop value : Z) : M World R unit :=
  modify (update_camera (cap_index cap) (fun c =>
    {| cam_opens := cam_opens c; cam_reads := cam_reads c;
       cam_props := (prop, value) :: cam_props c; cam_held := cam_held c |})).

(** [cap.read()] *)
Definition cap_read (cap : VideoCapture) : M World R (bool * option ndarray) :=
  fun w =>
    if cap_opened cap then
      match cameras w !! cap_index cap with
      | Some cam =>
          match cam_reads cam with
          | r :: rest =>
              of_outcome r
                (update_camera (cap_index cap) (fun c =>
                   {| cam_opens := cam_opens c; cam_reads := rest;
                      cam_props := cam_props c; cam_held := cam_held c |}) w)
          | [] => (Next (false, None), w)
          end
      | None => (Next (false, None), w)
      end
    else (Next (false, None), w).

(** [cap.release()] *)
Definition cap_release (cap : VideoCapture) : M World R unit :=
  if cap_opened cap then
    modify (update_camera (cap_index cap) (fun c =>
      {| cam_opens := cam_opens c; cam_reads := cam_reads c;
         cam_props := cam_props c; cam_held := false |}))
  else ret tt.

(** [time.time()] *)
Definition time_time : M World R Z := gets clock.

(** [time.sleep(d)]: durations are not modelled. *)
Definition time_sleep : M World R unit := ret tt.

(** [os.path.join(a, b)] for a relative [b] and an [a] without a trailing
    separator. *)
Definition os_path_join (a b : string) : string := a +:+ "/" +:+ b.

(** [os.path.exists(p)]; [p] may be [None], which is a [TypeError]. *)
Definition os_path_exists (p : option string) : M World R bool :=
  match p with
  | Some p => gets (fun w => bool_decide (is_Some (files w !! p)))
  | None =>
      raise (Exn TypeError
        "stat: path should be string, bytes, os.PathLike or integer, not NoneType")
  end.

(** [os.remove(p)] *)
Definition os_remove (p : option string) : M World R unit :=
  match p with
  | Some p =>
      fun w =>
        if bool_decide (p ∈ undeletable w)
        then (Raise (Exn OSError ("[Errno 13] Permission denied: '" +:+ p +:+ "'")), w)
        else if bool_decide (is_Some (files w !! p))
        then (Next tt, set_files (delete p (files w)) w)
        else (Raise (Exn OSError ("[Errno 2] No such file or directory: '" +:+ p +:+ "'")), w)
  | None =>
      raise (Exn TypeError
        "remove: path should be string, bytes or os.PathLike, not NoneType")
  end.

(** [cv2.imwrite(path, img)]: the file exists afterwards when the call
    returns [True]. *)
Definition cv2_imwrite (lib : Libs) (path : string) (img : ndarray)
  : M World R bool :=
  fun w =>
    match imwrite_result lib path img with
    | Val true => (Next true, set_files (<[path := img]> (files w)) w)
    | Val false => (Next false, w)
    | Exc e => (Raise e, w)
    end.
End Primitives.

End Env.

(* ===================================================================== *)
(** * scanner.py                                                           *)
(* ===================================================================== *)

Module Scanner.
Import Py Env.

(** The names bound at module level in scanner.py: its imports ([cv2],
    [numpy as np], [os], [tempfile], [from datetime import datetime]) and
    its three functions. *)
Definition module_globals : list string :=
  ["cv2"; "np"; "os"; "tempfile"; "datetime"; "check_camera_available";
   "capture_and_process_image"; "preprocess_image"].

Definition THRESH_BINARY : Z := 0.
Definition THRESH_OTSU : Z := 8.

Section Module_.
Variable lib : Libs.
(** The globals the functions are run with; [module_globals] for the
    module as it is written. *)
Variable G : list string.

(** An attribute of the [cv2] module, once the name [cv2] is resolved. *)
Definition cv2 {S R A} (m : M S R A) : M S R A := load_global G "cv2" >> m.

(** [cv2.threshold(src, thresh, maxval, type)]: with [THRESH_OTSU] set in
    [type] the threshold is the one Otsu's method selects, otherwise
    [thresh]; [THRESH_BINARY] sends a pixel above the threshold to
    [maxval] and every other pixel to 0.  Returns the threshold used and
    the image. *)
Definition cv2_threshold (src : ndarray) (thresh maxval type : Z)
  : outcome (Z * ndarray) :=
  match (if Z.testbit type 3 then otsu lib src else Val thresh) with
  | Exc e => Exc e
  | Val t =>
      if Z.land type 7 =? THRESH_BINARY
      then Val (t, NdArray (shape src)
                     (map (fun p => if t <? p then maxval else 0) (data src)))
      else match threshold_other lib type src t maxval with
           | Val d => Val (t, d)
           | Exc e => Exc e
           end
  end.

Definition preprocess_image {S} (image : ndarray) : F S ndarray :=
  def_total
    (try_except
       (gray <- (if (length (shape image) =? 3)%nat
                 then cv2 (of_outcome (cvtColor_BGR2GRAY lib image))
                 else ret image);
        denoised <- cv2 (of_outcome (GaussianBlur lib gray (3%nat, 3%nat) 0));
        enhanced <- cv2 (of_outcome (CLAHE_apply lib 2 (8%nat, 8%nat) denoised));
        tb <- cv2 (of_outcome
                (cv2_threshold enhanced 0 255 (THRESH_BINARY + THRESH_OTSU)));
        return_ (snd tb))
       [except_Exception (fun e => return_ image)]).

(** [if cap is not None: cap.release()] *)
Definition release_if_set {R} : M (option VideoCapture * World) R unit :=
  cap <- get_local;
  match cap with
  | Some c => outer (cap_release c)
  | None => ret tt
  end.

Definition check_camera_available (camera_index : Z) : F World bool :=
  def_total
    (with_locals (None : option VideoCapture)
       (try_finally
          (try_except
             (cap <- outer (cv2 (VideoCapture_new camera_index));
              set_local (Some cap) >>
              when (negb (cap_opened cap)) (return_ false) >>
              rf <- outer (cap_read cap);
              (* ret and frame is not None *)
              return_ (fst rf && match snd rf with Some _ => true | None => false end))
             [except_Exception (fun e => return_ false)])
          release_if_set)).

Definition capture_and_process_image
    (camera_index : Z) (resolution : Z * Z) (timeout : Z)
  : F World (option string * option string) :=
  def_total
    (with_locals (None : option VideoCapture)
       (try_finally
          (try_except
             (cap <- outer (cv2 (VideoCapture_new camera_index));
              set_local (Some cap) >>
              when (negb (cap_opened cap))
                (return_ (None, Some ("Could not open camera " +:+ pretty camera_index))) >>
              outer (cv2 (cap_set cap CAP_PROP_FRAME_WIDTH (fst resolution))) >>
              outer (cv2 (cap_set cap CAP_PROP_FRAME_HEIGHT (snd resolution))) >>
              for_in (range 5) (fun i =>
                rf <- outer (cap_read cap);
                when (negb (fst rf))
                  (return_ (None, Some "Failed to capture initial frames")) >>
                outer (load_global G "time" >> time_sleep)) >>
              rf <- outer (cap_read cap);
              match rf with
              | (true, Some frame) =>
                  processed <- outer (invoke (preprocess_image frame));
                  timestamp <- outer (load_global G "datetime" >> gets now_stamp);
                  temp_dir <- outer (load_global G "tempfile" >> gets tempdir);
                  image_path <- outer (load_global G "os" >>
                    ret (os_path_join temp_dir
                           ("document_scan_" +:+ timestamp +:+ ".jpg")));
                  success <- outer (cv2 (cv2_imwrite lib image_path processed));
                  when (negb success)
                    (return_ (None, Some "Failed to save processed image")) >>
                  return_ (Some image_path, None)
              | _ =>
                  (* not ret or frame is None *)
                  return_ (None, Some "Failed to capture image frame")
              end)
             [except_Exception (fun e =>
                return_ (None, Some ("Capture error: " +:+ exn_str e)))])
          release_if_set)).
End Module_.

End Scanner.

(* ===================================================================== *)
(** * ocr_processor.py                                                     *)
(* ===================================================================== *)

Module OcrProcessor.
Import Py Env.

Section Module_.
Variable lib : Libs.

(** [Image.open(path)] on the file at [path]. *)
Definition PIL_Image_open {R} (path : option string) : M World R PILImage :=
  match path with
  | Some p =>
      fun w =>
        match files w !! p with
        | Some content => of_outcome (Image_open lib content) w
        | None =>
            (Raise (Exn OSError
               ("[Errno 2] No such file or directory: '" +:+ p +:+ "'")), w)
        end
  | None => raise (Exn TypeError "'NoneType' object has no attribute 'read'")
  end.

Definition ocr_image (image_path : option string) (lang config : string)
  : F World (option string * option string) :=
  def_total
    (try_except
       (found <- os_path_exists image_path;
        when (negb found) (return_ (None, Some "Image file not found")) >>
        try_except
          (img <- PIL_Image_open image_path;
           img <- (if negb (String.eqb (mode img) "RGB")
                   then of_outcome (Image_convert lib img "RGB")
                   else ret img);
           custom_config <- ret (if truthy (Some config) then config else "--psm 6");
           text <- of_outcome (image_to_string lib img lang custom_config);
           cleaned_text <- ret (strip text);
           return_ (Some cleaned_text, None))
          [except_Exception (fun e =>
             return_ (None, Some ("Image processing error: " +:+ exn_str e)))])
       [except_class TesseractNotFoundError (fun _ =>
          return_ (None,
                   Some "Tesseract OCR not installed. Please run: sudo apt install tesseract-ocr"));
        except_Exception (fun e =>
          return_ (None, Some ("OCR processing error: " +:+ exn_str e)))]).
End Module_.

End OcrProcessor.

(* ===================================================================== *)
(** * app.py: configuration, the status query and the scan pipeline        *)
(* ===================================================================== *)

Module App.
Import Py Env.

Definition CAMERA_INDEX : Z := 0.
Definition CAMERA_RESOLUTION : Z * Z := (1920, 1080).
Definition SCAN_TIMEOUT : Z := 30.
Definition OCR_LANGUAGE : string := "eng".
Definition OCR_CONFIG : string := "--psm 6".

(** The module's mutable globals. *)
Record Globals : Type := {
  last_scan_result : gmap string pyval;
  scan_in_progress : bool
}.

Definition initial_globals : Globals :=
  {| last_scan_result :=
       {[ "text" := VStr ""; "timestamp" := VNone;
          "success" := VBool false; "error" := VNone ]};
     scan_in_progress := false |}.

(** The store the application runs on: its globals and the environment. *)
Definition Machine : Type := Globals * World.

(** [last_scan_result = d] *)
Definition set_last_scan_result {R} (d : gmap string pyval) : M Machine R unit :=
  modify (fun m => ({| last_scan_result := d;
                       scan_in_progress := scan_in_progress (fst m) |}, snd m)).

(** [scan_in_progress = b] *)
Definition set_scan_in_progress {R} (b : bool) : M Machine R unit :=
  modify (fun m => ({| last_scan_result := last_scan_result (fst m);
                       scan_in_progress := b |}, snd m)).

(** The tuple [(w, h)] as a value. *)
Definition tuple2 (p : Z * Z) : pyval := VTuple [fst p; snd p].

(** [f"{x}"] for an optional string. *)
Definition fmt (o : option string) : string :=
  match o with Some s => s | None => "None" end.

Section Collaborators.
(** The functions of the modules [scanner] and [ocr_processor] that the
    application calls. *)
Variable check_camera_available : Z -> F World bool.
Variable capture_and_process_image
  : Z -> Z * Z -> Z -> F World (option string * option string).
Variable ocr_image
  : option string -> string -> string -> F World (option string * option string).

Definition get_camera_status : F World (gmap string pyval) :=
  def_total
    (try_except
       (available <- invoke (check_camera_available CAMERA_INDEX);
        return_ {[ "camera_online" := VBool available;
                   "resolution" := (if available then tuple2 CAMERA_RESOLUTION
                                    else VNone);
                   "status" := VStr (if available then "online" else "offline") ]})
       [except_Exception (fun e =>
          return_ {[ "camera_online" := VBool false;
                     "resolution" := VNone;
                     "status" := VStr "error";
                     "error" := VStr (exn_str e) ]})]).

(** The block that cleans up the temporary image file:
    [try: if os.path.exists(p): os.remove(p)  except: pass]. *)
Definition remove_temporary_image (image_path : option string)
  : M Machine unit unit :=
  try_except
    (found <- outer (os_path_exists image_path);
     when found (outer (os_remove image_path)))
    [except_Exception (fun _ => ret tt)].

(** The [try]/[except] part of [perform_scan]; the [print] calls, which
    touch nothing here, are left out. *)
Definition perform_scan_try : M Machine unit unit :=
  try_except
    ((* Step 1: Capture and process image *)
     ce <- outer (invoke (capture_and_process_image
                            CAMERA_INDEX CAMERA_RESOLUTION SCAN_TIMEOUT));
     image_path <- ret (fst ce);
     capture_error <- ret (snd ce);
     when (truthy capture_error)
       (now <- outer time_time;
        set_last_scan_result
          {[ "text" := VStr ""; "timestamp" := VFloat now;
             "success" := VBool false;
             "error" := VStr ("Capture failed: " +:+ fmt capture_error) ]} >>
        return_ tt) >>
     (* Step 2: Perform OCR *)
     te <- outer (invoke (ocr_image image_path OCR_LANGUAGE OCR_CONFIG));
     text <- ret (fst te);
     ocr_error <- ret (snd te);
     (* Clean up the temporary image file *)
     remove_temporary_image image_path >>
     if truthy ocr_error then
       now <- outer time_time;
       set_last_scan_result
         {[ "text" := VStr ""; "timestamp" := VFloat now;
            "success" := VBool false;
            "error" := VStr ("OCR failed: " +:+ fmt ocr_error) ]}
     else
       now <- outer time_time;
       set_last_scan_result
         {[ "text" := VStr (str_or text "No text detected");
            "timestamp" := VFloat now;
            "success" := VBool true;
            "error" := VNone ]})
    [except_Exception (fun e =>
       now <- outer time_time;
       set_last_scan_result
         {[ "text" := VStr ""; "timestamp" := VFloat now;
            "success" := VBool false;
            "error" := VStr ("Unexpected error: " +:+ exn_str e) ]})].

(** The [finally] part. *)
Definition perform_scan_finally : M Machine unit unit :=
  set_scan_in_progress false.

Definition perform_scan : F Machine unit :=
  def tt (try_finally perform_scan_try perform_scan_finally).
End Collaborators.

End App.

(* ===================================================================== *)
(** * app.py: the POST /scan handler and its threads                       *)
(* ===================================================================== *)

Module Server.
Import Py Env App.

(** What a route returns: the JSON body and the status code. *)
Record response : Type := Response { body : gmap string pyval; status_code : Z }.

(** [jsonify({"success": False, "error": "Scan already in progress"}), 429] *)
Definition rejected : response :=
  Response {[ "success" := VBool false;
              "error" := VStr "Scan already in progress" ]} 429.

(** [jsonify({"success": True, "message": "Scan started successfully"})] *)
Definition accepted : response :=
  Response {[ "success" := VBool true;
              "message" := VStr "Scan started successfully" ]} 200.

(** Where a thread that runs [scan_document] stands, statement by
    statement. *)
Inductive handler_pc : Type :=
| AtWith            (* at [with scan_lock:], waiting for the lock *)
| AtTest            (* in the block, at [if scan_in_progress:] *)
| AtReject          (* in the block, at [return jsonify(...), 429] *)
| AtSet             (* in the block, at [scan_in_progress = True] *)
| AtWithExit        (* leaving the block *)
| AtThreadStart     (* at [scan_thread.start()] *)
| AtReturn          (* at the last [return jsonify(...)] *)
| Responded (r : response).

(** Where a thread that runs [perform_scan] stands: in the [try] part, in
    the [finally] part with the completion of the [try] part pending, or
    over, with what left the function. *)
Inductive pipeline_pc : Type :=
| InTry
| InFinally (c : completion unit unit)
| Ended (o : outcome unit).

Record System : Type := {
  machine : Machine;
  scan_lock : option nat;        (* the handler that holds the lock, if any *)
  handlers : list handler_pc;    (* the POST /scan requests, by arrival *)
  pipelines : list pipeline_pc   (* the threads started, by start *)
}.

Definition initial (w : World) : System :=
  {| machine := (initial_globals, w); scan_lock := None;
     handlers := []; pipelines := [] |}.

Definition set_machine (m : Machine) (σ : System) : System :=
  {| machine := m; scan_lock := scan_lock σ;
     handlers := handlers σ; pipelines := pipelines σ |}.
Definition set_scan_lock (l : option nat) (σ : System) : System :=
  {| machine := machine σ; scan_lock := l;
     handlers := handlers σ; pipelines := pipelines σ |}.
Definition set_handler (i : nat) (pc : handler_pc) (σ : System) : System :=
  {| machine := machine σ; scan_lock := scan_lock σ;
     handlers := <[i := pc]> (handlers σ); pipelines := pipelines σ |}.
Definition set_pipeline (j : nat) (pc : pipeline_pc) (σ : System) : System :=
  {| machine := machine σ; scan_lock := scan_lock σ;
     handlers := handlers σ; pipelines := <[j := pc]> (pipelines σ) |}.
Definition add_handler (pc : handler_pc) (σ : System) : System :=
  {| machine := machine σ; scan_lock := scan_lock σ;
     handlers := handlers σ ++ [pc]; pipelines := pipelines σ |}.
Definition add_pipeline (pc : pipeline_pc) (σ : System) : System :=
  {| machine := machine σ; scan_lock := scan_lock σ;
     handlers := handlers σ; pipelines := pipelines σ ++ [pc] |}.

(** What can happen next: a request arrives, a handler runs its next
    statement, a pipeline thread runs its next part. *)
Inductive event : Type :=
| Request
| Handler (i : nat)
| Pipeline (j : nat).

Section Collaborators.
Variable capture_and_process_image
  : Z -> Z * Z -> Z -> F World (option string * option string).
Variable ocr_image
  : option string -> string -> string -> F World (option string * option string).

(** One statement of handler [i]; [None] when it cannot run (there is no
    such handler, it has responded, or it waits for the lock). *)
Definition step_handler (i : nat) (σ : System) : option System :=
  match handlers σ !! i with
  | Some AtWith =>
      match scan_lock σ with
      | None => Some (set_handler i AtTest (set_scan_lock (Some i) σ))
      | Some _ => None
      end
  | Some AtTest =>
      Some (set_handler i
              (if scan_in_progress (fst (machine σ)) then AtReject else AtSet) σ)
  | Some AtReject =>
      Some (set_handler i (Responded rejected) (set_scan_lock None σ))
  | Some AtSet =>
      Some (set_handler i AtWithExit
              (set_machine (snd (set_scan_in_progress (R:=unit) true (machine σ))) σ))
  | Some AtWithExit =>
      Some (set_handler i AtThreadStart (set_scan_lock None σ))
  | Some AtThreadStart =>
      Some (set_handler i AtReturn (add_pipeline InTry σ))
  | Some AtReturn =>
      Some (set_handler i (Responded accepted) σ)
  | Some (Responded _) | None => None
  end.

(** One part of pipeline thread [j]. *)
Definition step_pipeline (j : nat) (σ : System) : option System :=
  match pipelines σ !! j with
  | Some InTry =>
      match perform_scan_try capture_and_process_image ocr_image (machine σ) with
      | (c, m) => Some (set_pipeline j (InFinally c) (set_machine m σ))
      end
  | Some (InFinally c) =>
      match def tt (finally_ c perform_scan_finally) (machine σ) with
      | (o, m) => Some (set_pipeline j (Ended o) (set_machine m σ))
      end
  | Some (Ended _) | None => None
  end.

Definition step (ev : event) (σ : System) : option System :=
  match ev with
  | Request => Some (add_handler AtWith σ)
  | Handler i => step_handler i σ
  | Pipeline j => step_pipeline j σ
  end.

(** A schedule, run from [σ]. *)
Fixpoint run (evs : list event) (σ : System) : option System :=
  match evs with
  | [] => Some σ
  | ev :: rest =>
      match step ev σ with
      | Some σ1 => run rest σ1
      | None => None
      end
  end.

(** The states the server can be in, started in the world [w]. *)
Definition reachable (w : World) (σ : System) : Prop :=
  exists evs, run evs (initial w) = Some σ.
End Collaborators.

(** Counting the threads at given places. *)
Fixpoint count {A} (p : A -> bool) (l : list A) : nat :=
  match l with
  | [] => 0
  | x :: rest => ((if p x then 1 else 0) + count p rest)%nat
  end.

(** The handler is inside the [with scan_lock:] block. *)
Definition in_with_block (pc : handler_pc) : bool :=
  match pc with
  | AtTest | AtReject | AtSet | AtWithExit => true
  | _ => false
  end.

(** The handler has set the flag and not yet started its thread. *)
Definition admitted_not_started (pc : handler_pc) : bool :=
  match pc with
  | AtWithExit | AtThreadStart => true
  | _ => false
  end.

(** The handler has started its thread. *)
Definition has_started_thread (pc : handler_pc) : bool :=
  match pc with
  | AtReturn => true
  | Responded r => status_code r =? 200
  | _ => false
  end.

(** The pipeline thread is still executing. *)
Definition executing (pc : pipeline_pc) : bool :=
  match pc with
  | InTry | InFinally _ => true
  | Ended _ => false
  end.

(** The number of pipelines in progress. *)
Definition pipelines_in_progress (σ : System) : nat :=
  count executing (pipelines σ).

Definition flag (σ : System) : bool := scan_in_progress (fst (machine σ)).

(** What holds in every state the server reaches:
    - the flag is set exactly when one handler has set it and not yet
      started its thread, or one pipeline is executing, and there is at most
      one of these;
    - the handlers inside the [with] block are the holder of the lock;
    - a handler about to set the flag finds it clear;
    - every thread was started by a handler that went on to accept, and
      each such handler started one;
    - the responses are the two of the route. *)
Definition invariant (σ : System) : Prop :=
  (count admitted_not_started (handlers σ) + pipelines_in_progress σ
   = if flag σ then 1 else 0)%nat
  /\ (forall i pc, handlers σ !! i = Some pc -> in_with_block pc = true ->
                   scan_lock σ = Some i)
  /\ (forall i, scan_lock σ = Some i ->
                exists pc, handlers σ !! i = Some pc /\ in_with_block pc = true)
  /\ (forall i, handlers σ !! i = Some AtSet -> flag σ = false)
  /\ length (pipelines σ) = count has_started_thread (handlers σ)
  /\ (forall i r, handlers σ !! i = Some (Responded r) ->
                  r = rejected \/ r = accepted).

End Server.

(* ===================================================================== *)
(** * Reasoning about statements, and the worlds used as examples          *)
(* ===================================================================== *)

Module Logic.
Import Py Env.

(** [wp m Q s]: run from [s], the statement [m] completes in a way and in a
    store that satisfy [Q].  Statements are total functions, so this is a
    total-correctness assertion. *)
Definition wp {S R A} (m : M S R A) (Q : completion R A -> S -> Prop) (s : S)
  : Prop :=
  Q (fst (m s)) (snd (m s)).

(** The same for a function call. *)
Definition fwp {S A} (f : F S A) (Q : outcome A -> S -> Prop) (s : S) : Prop :=
  Q (fst (f s)) (snd (f s)).

(** The part of the world that the camera primitives leave alone. *)
Definition disk (w : World)
  : gmap string ndarray * gset string * Z * string * string :=
  (files w, undeletable w, clock w, tempdir w, now_stamp w).

(** The device [i] is there, opens, and [rs] is what its next reads give. *)
Definition reads_at (w : World) (i : Z)
    (rs : list (outcome (bool * option ndarray))) : Prop :=
  exists cam, cameras w !! i = Some cam /\ cam_opens cam = true
              /\ cam_reads cam = rs.

(** Sequencing of library calls. *)
Definition and_then {A B} (o : outcome A) (k : A -> outcome B) : outcome B :=
  match o with
  | Val a => k a
  | Exc e => Exc e
  end.

(** [THRESH_BINARY] at threshold [t]. *)
Definition binarize (t maxval : Z) (img : ndarray) : ndarray :=
  NdArray (shape img) (map (fun p => if t <? p then maxval else 0) (data img)).

(** The enhancement as the specification words it: luminance when the
    frame has a channel axis, then a 3x3 Gaussian smoothing, then adaptive
    histogram equalization on an 8x8 grid, then Otsu's global threshold. *)
Definition enhance_steps (lib : Libs) (image : ndarray) : outcome ndarray :=
  and_then (if (length (shape image) =? 3)%nat
            then cvtColor_BGR2GRAY lib image else Val image) (fun gray =>
  and_then (GaussianBlur lib gray (3%nat, 3%nat) 0) (fun denoised =>
  and_then (CLAHE_apply lib 2 (8%nat, 8%nat) denoised) (fun enhanced =>
  and_then (otsu lib enhanced) (fun t =>
  Val (binarize t 255 enhanced))))).

(** Every pixel of the image is [lo] or [hi]. *)
Definition two_level (lo hi : Z) (img : ndarray) : Prop :=
  Forall (fun p => p = lo \/ p = hi) (data img).

(** All the characters of [s] are white space. *)
Fixpoint all_space (s : string) : bool :=
  match s with
  | EmptyString => true
  | String c rest => isspace c && all_space rest
  end.

(** The first and the last character of [s], if any. *)
Definition first_char (s : string) : option ascii :=
  match s with
  | EmptyString => None
  | String c _ => Some c
  end.

Fixpoint last_char (s : string) : option ascii :=
  match s with
  | EmptyString => None
  | String c EmptyString => Some c
  | String _ rest => last_char rest
  end.

(** [s] neither starts nor ends with white space. *)
Definition trimmed (s : string) : Prop :=
  (forall c, first_char s = Some c -> isspace c = false) /\
  (forall c, last_char s = Some c -> isspace c = false).

(** The dictionary of a scan result. *)
Definition scan_result (text : string) (now : Z) (success : bool)
    (error : pyval) : gmap string pyval :=
  {[ "text" := VStr text; "timestamp" := VFloat now;
     "success" := VBool success; "error" := error ]}.

(** A scan result has exactly the four keys, a text, a time stamp, a truth
    value, and an error that is [None] or a message. *)
Definition complete_result (d : gmap string pyval) : Prop :=
  exists text now success error,
    d = scan_result text now success error
    /\ (error = VNone \/ exists msg, error = VStr msg).

(** The globals once [d] is published. *)
Definition publish (d : gmap string pyval) (g : App.Globals) : App.Globals :=
  {| App.last_scan_result := d;
     App.scan_in_progress := App.scan_in_progress g |}.

(** The world once the temporary image at [p] has been cleaned up: the
    file is gone when it was there and can be removed. *)
Definition after_cleanup (p : option string) (w : World) : World :=
  match p with
  | Some q =>
      if bool_decide (is_Some (files w !! q))
         && negb (bool_decide (q ∈ undeletable w))
      then set_files (delete q (files w)) w
      else w
  | None => w
  end.

(** What [ocr_image] returns, as a function of the files: the trimmed
    text, or a message. *)
Definition ocr_result (lib : Libs) (fs : gmap string ndarray)
    (p : option string) (lang config : string)
  : option string * option string :=
  match p with
  | None =>
      (None,
       Some ("OCR processing error: " +:+
             "stat: path should be string, bytes, os.PathLike or integer, not NoneType"))
  | Some q =>
      match fs !! q with
      | None => (None, Some "Image file not found")
      | Some content =>
          match
            and_then (Image_open lib content) (fun img0 =>
            and_then (if negb (String.eqb (mode img0) "RGB")
                      then Image_convert lib img0 "RGB" else Val img0) (fun img =>
            image_to_string lib img lang
              (if truthy (Some config) then config else "--psm 6")))
          with
          | Val raw => (Some (strip raw), None)
          | Exc e => (None, Some ("Image processing error: " +:+ exn_str e))
          end
      end
  end.

(** What the capture function of scanner.py leaves behind: it returns a
    path and no error, having written that one file, which takes the name
    [time] bound in the module; or it returns no path and a message, having
    written nothing. *)
Definition capture_post (G : list string) (w : World)
    (r : option string * option string) (w1 : World) : Prop :=
  undeletable w1 = undeletable w /\ clock w1 = clock w /\
  ((exists p img, r = (Some p, None) /\ files w1 = <[p := img]> (files w)
                  /\ "time" ∈ G)
   \/ (exists e, r = (None, Some e) /\ e <> EmptyString /\ files w1 = files w)).

(** A capture function followed by a change of the set of files that cannot
    be removed. *)
Definition then_undeletable (U : gset string)
    (capture : Z -> Z * Z -> Z -> F World (option string * option string))
  : Z -> Z * Z -> Z -> F World (option string * option string) :=
  fun i res t w =>
    match capture i res t w with (o, w1) => (o, set_undeletable U w1) end.

End Logic.

Module Samples.
Import Py Env.

(** Libraries that work: the enhancement steps other than the threshold
    leave the image as it is, Otsu's method selects 100, the engine reads
    ["  Hello  "]. *)
Definition lib : Libs := {|
  cvtColor_BGR2GRAY := fun a => Val (NdArray [1%nat; 2%nat] [10; 200]);
  GaussianBlur := fun a _ _ => Val a;
  CLAHE_apply := fun _ _ a => Val a;
  otsu := fun _ => Val 100;
  threshold_other := fun _ a _ _ => Val a;
  imwrite_result := fun _ _ => Val true;
  Image_open := fun a => Val (PIL "L" a);
  Image_convert := fun a m => Val (PIL m (pixels a));
  image_to_string := fun _ _ _ => Val "  Hello  "
|}.

(** The same with no Tesseract binary installed. *)
Definition lib_no_engine : Libs := {|
  cvtColor_BGR2GRAY := cvtColor_BGR2GRAY lib;
  GaussianBlur := GaussianBlur lib;
  CLAHE_apply := CLAHE_apply lib;
  otsu := otsu lib;
  threshold_other := threshold_other lib;
  imwrite_result := imwrite_result lib;
  Image_open := Image_open lib;
  Image_convert := Image_convert lib;
  image_to_string := fun _ _ _ =>
    Exc (Exn TesseractNotFoundError
           "tesseract is not installed or it's not in your PATH. See README file for more information.")
|}.

(** The same with an engine that fails on the image. *)
Definition lib_engine_fails : Libs := {|
  cvtColor_BGR2GRAY := cvtColor_BGR2GRAY lib;
  GaussianBlur := GaussianBlur lib;
  CLAHE_apply := CLAHE_apply lib;
  otsu := otsu lib;
  threshold_other := threshold_other lib;
  imwrite_result := imwrite_result lib;
  Image_open := Image_open lib;
  Image_convert := Image_convert lib;
  image_to_string := fun _ _ _ =>
    Exc (Exn TesseractError "(1, 'Error opening data file')")
|}.

(** The same with a colour conversion that rejects the frame. *)
Definition lib_no_gray : Libs := {|
  cvtColor_BGR2GRAY := fun _ =>
    Exc (Exn CvError "Invalid number of channels in input image");
  GaussianBlur := GaussianBlur lib;
  CLAHE_apply := CLAHE_apply lib;
  otsu := otsu lib;
  threshold_other := threshold_other lib;
  imwrite_result := imwrite_result lib;
  Image_open := Image_open lib;
  Image_convert := Image_convert lib;
  image_to_string := image_to_string lib
|}.

(** A colour frame of one row and two pixels. *)
Definition frame : ndarray := NdArray [1%nat; 2%nat; 3%nat] [1; 2; 3; 4; 5; 6].

(** A camera that opens and gives six frames. *)
Definition camera : Camera :=
  {| cam_opens := true; cam_reads := repeat (Val (true, Some frame)) 6;
     cam_props := []; cam_held := false |}.

Definition world : World :=
  {| clock := 7; files := ∅; undeletable := ∅;
     cameras := {[ 0 := camera ]}; tempdir := "/tmp";
     now_stamp := "20240101_000000" |}.

(** No camera is plugged in. *)
Definition world_no_camera : World :=
  {| clock := 7; files := ∅; undeletable := ∅;
     cameras := ∅; tempdir := "/tmp";
     now_stamp := "20240101_000000" |}.

(** The path of the temporary image in these worlds. *)
Definition image_path : string := "/tmp/document_scan_20240101_000000.jpg".

(** The temporary image cannot be removed. *)
Definition world_locked : World := set_undeletable {[ image_path ]} world.

(** The globals of scanner.py once the name [time] is bound, which the
    [time.sleep] of the warm-up loop needs; the module as written does not
    import it. *)
Definition globals_with_time : list string := "time" :: Scanner.module_globals.

(** A capture function that stands for a successful capture: it writes
    the image and returns its path. *)
Definition capture_ok : Z -> Z * Z -> Z -> F World (option string * option string) :=
  Scanner.capture_and_process_image lib globals_with_time.

(** A probe that raises. *)
Definition probe_raises : Z -> F World bool :=
  fun _ w => (Exc (Exn RuntimeError "camera driver crashed"), w).

(** Two requests; the second is handled while the first holds the flag. *)
Definition schedule : list Server.event :=
  [Server.Request; Server.Handler 0; Server.Handler 0; Server.Handler 0;
   Server.Request; Server.Handler 0; Server.Handler 1; Server.Handler 1;
   Server.Handler 1; Server.Handler 0; Server.Pipeline 0]%nat.

End Samples.

(* ===================================================================== *)
(** * app.py: the read-only routes                                         *)
(* ===================================================================== *)

Module Routes.
Import Py Env App.

Section Collaborators.
Variable check_camera_available : Z -> F World bool.

(** [GET /status]: the camera status, to which the flag is added under the
    key ["scan_in_progress"]; [jsonify] of the dictionary, with status 200. *)
Definition status : F Machine Server.response :=
  def_total
    (st <- outer (invoke (get_camera_status check_camera_available));
     in_progress <- gets (fun m : Machine => scan_in_progress (fst m));
     return_ (Server.Response (<["scan_in_progress" := VBool in_progress]> st) 200)).
End Collaborators.

(** [GET /last_result] *)
Definition get_last_result : F Machine Server.response :=
  def_total
    (d <- gets (fun m : Machine => last_scan_result (fst m));
     return_ (Server.Response d 200)).

(** [GET /health] *)
Definition health_check : F Machine Server.response :=
  def_total
    (now <- outer time_time;
     return_ (Server.Response
                {[ "status" := VStr "healthy"; "timestamp" := VFloat now ]} 200)).

End Routes.

(* ===================================================================== *)
(** * Further notions and examples                                         *)
(* ===================================================================== *)

Module Notions.
Import Py Env App Logic.

(** No handle is open on the device [i]. *)
Definition released (w : World) (i : Z) : Prop :=
  match cameras w !! i with
  | Some cam => cam_held cam = false
  | None => True
  end.

(** The device [i] is missing or does not open. *)
Definition cannot_open (w : World) (i : Z) : Prop :=
  match cameras w !! i with
  | Some cam => cam_opens cam = false
  | None => True
  end.

(** What [check_camera_available] answers at a device that opens, by the
    result of the one read: [ret and frame is not None]. *)
Definition probe_answer (r : outcome (bool * option ndarray)) : bool :=
  match r with
  | Val (true, Some _) => true
  | _ => false
  end.

(** The message of the capture at a device that opens and whose first read
    does not succeed. *)
Definition first_read_message (r : outcome (bool * option ndarray)) : string :=
  match r with
  | Val (true, _) => "Capture error: name 'time' is not defined"
  | Val (false, _) => "Failed to capture initial frames"
  | Exc e => "Capture error: " +:+ exn_str e
  end.

(** The message of the [except TesseractNotFoundError] clause of
    [ocr_image]. *)
Definition not_installed_message : string :=
  "Tesseract OCR not installed. Please run: sudo apt install tesseract-ocr".

(** The results that [perform_scan] stores: a success with a text that is
    not empty and no error, or a failure with an empty text and a message
    that starts with one of the three prefixes. *)
Definition well_formed_result (d : gmap string pyval) : Prop :=
  (exists text now,
     d = scan_result text now true VNone /\ text <> EmptyString)
  \/ (exists msg now,
        d = scan_result "" now false (VStr msg)
        /\ (String.prefix "Capture failed: " msg = true
            \/ String.prefix "OCR failed: " msg = true
            \/ String.prefix "Unexpected error: " msg = true)).

(** A failure of the capture, as [perform_scan] stores it. *)
Definition capture_failure (d : gmap string pyval) : Prop :=
  exists e now,
    d = scan_result "" now false (VStr ("Capture failed: " +:+ e))
    /\ e <> EmptyString.

(** The two reports of [get_camera_status] after a probe that answered. *)
Definition camera_report (available : bool) : gmap string pyval :=
  if available
  then {[ "camera_online" := VBool true;
          "resolution" := VTuple [1920; 1080];
          "status" := VStr "online" ]}
  else {[ "camera_online" := VBool false;
          "resolution" := VNone;
          "status" := VStr "offline" ]}.

(** A pipeline thread, where it stands, has let no exception out. *)
Definition thread_sound (pc : Server.pipeline_pc) : Prop :=
  match pc with
  | Server.InTry => True
  | Server.InFinally c => forall e, c <> Raise e
  | Server.Ended o => o = Val tt
  end.

(** [k] statements of handler [i] in a row. *)
Definition handler_steps (i : nat) (k : nat) : list Server.event :=
  repeat (Server.Handler i) k.

End Notions.

Module MoreSamples.
Import Py Env.

(** A recognition function that raises. *)
Definition ocr_raises
  : option string -> string -> string -> F World (option string * option string) :=
  fun _ _ _ w => (Exc (Exn RuntimeError "engine crashed"), w).

(** A capture function that raises. *)
Definition capture_raises
  : Z -> Z * Z -> Z -> F World (option string * option string) :=
  fun _ _ _ w => (Exc (Exn RuntimeError "camera driver crashed"), w).

(** A camera that opens and gives nothing. *)
Definition camera_dry : Camera :=
  {| cam_opens := true; cam_reads := []; cam_props := []; cam_held := false |}.

(** A camera that does not open. *)
Definition camera_busy : Camera :=
  {| cam_opens := false; cam_reads := []; cam_props := []; cam_held := false |}.

(** A camera that opens and whose first read raises. *)
Definition camera_faulty : Camera :=
  {| cam_opens := true;
     cam_reads := [Exc (Exn CvError "select() timeout")];
     cam_props := []; cam_held := false |}.

Definition world_with (cam : Camera) : World :=
  {| clock := 7; files := ∅; undeletable := ∅;
     cameras := {[ 0 := cam ]}; tempdir := "/tmp";
     now_stamp := "20240101_000000" |}.

(** Another file lies next to the temporary image. *)
Definition world_with_other_file : World :=
  set_files {[ "/tmp/notes.txt" := NdArray [] [] ]} Samples.world.

End MoreSamples.

(* ===================================================================== *)
(** * Theorems                                                             *)
(* ===================================================================== *)

(** ** The enhancer *)

Module EnhancerFacts.
Import Py Env Logic.

Lemma binarize_two_level (t maxval : Z) (img : ndarray) :
  two_level 0 maxval (binarize t maxval img).
Proof.
  unfold two_level, binarize; simpl.
  induction (data img) as [|p rest IH]; simpl; constructor; auto.
  destruct (t <? p); auto.
Qed.

(** With [cv2] bound, the function is the four steps in order, and the
    input when one of them raises. *)
Lemma preprocess_image_steps (lib : Libs) (G : list string) (S : Type)
    (image : ndarray) (s : S) :
  "cv2" ∈ G ->
  Scanner.preprocess_image lib G image s
  = (Val (match enhance_steps lib image with Val b => b | Exc _ => image end), s).
Proof.
  intros HG.
  unfold Scanner.preprocess_image, enhance_steps, Scanner.cv2, load_global,
    Scanner.cv2_threshold, binarize.
  rewrite (bool_decide_eq_true_2 _ HG).
  unfold def_total, try_except, bind, of_outcome, ret, return_, and_then; simpl.
  destruct (length (shape image) =? 3)%nat;
    [destruct (cvtColor_BGR2GRAY lib image) as [gray|e]; simpl; [|reflexivity]|];
    match goal with |- context [GaussianBlur lib ?g _ _] =>
      destruct (GaussianBlur lib g (3%nat, 3%nat) 0) as [den|e]; simpl; [|reflexivity] end;
    (destruct (CLAHE_apply lib 2 (8%nat, 8%nat) den) as [enh|e]; simpl; [|reflexivity]);
    (destruct (otsu lib enh) as [t|e]; simpl; reflexivity).
Qed.

(** C7. Enhancer totality and fallback: whatever the libraries do and
    whatever the frame is, [preprocess_image] returns an image, raises
    nothing and leaves the store alone; when a step of the enhancement
    raises, the image returned is the input frame, and otherwise it is the
    result of the steps. *)
Theorem C7_enhance_total_with_fallback :
  forall (lib : Libs) (G : list string) (S : Type) (image : ndarray) (s : S),
    exists out,
      Scanner.preprocess_image lib G image s = (Val out, s)
      /\ (forall e, enhance_steps lib image = Exc e -> out = image)
      /\ (out = image \/ enhance_steps lib image = Val out).
Proof.
  intros lib G S image s.
  destruct (decide ("cv2" ∈ G)) as [HG|HG].
  - rewrite (preprocess_image_steps lib G S image s HG).
    eexists; split; [reflexivity|].
    destruct (enhance_steps lib image) as [b|e0]; split; auto; congruence.
  - exists image.
    unfold Scanner.preprocess_image, Scanner.cv2, load_global.
    rewrite (bool_decide_eq_false_2 _ HG).
    unfold def_total, try_except, bind, ret, raise; simpl.
    destruct (length (shape image) =? 3)%nat; simpl; auto.
Qed.

(** The theorem at a colour frame whose conversion raises. *)
Lemma C7_enhance_total_with_fallback_witness :
  exists out,
    Scanner.preprocess_image Samples.lib_no_gray Scanner.module_globals
      Samples.frame tt = (Val out, tt)
    /\ out = Samples.frame.
Proof.
  destruct (C7_enhance_total_with_fallback Samples.lib_no_gray
              Scanner.module_globals unit Samples.frame tt)
    as [out [Hrun [Hexc _]]].
  exists out. split; [exact Hrun|].
  apply (Hexc (Exn CvError "Invalid number of channels in input image")).
  reflexivity.
Defined.

(** C8. Enhancer algorithm: run as the module of scanner.py, the function
    applies luminance conversion only to a frame with a channel axis, then
    the 3x3 Gaussian smoothing, then the equalization on the 8x8 grid, then
    Otsu's threshold, in this order; when no step raises, the image returned
    is the result of these steps and each of its pixels is 0 or 255. *)
Theorem C8_enhance_algorithm :
  forall (lib : Libs) (S : Type) (image : ndarray) (s : S),
    Scanner.preprocess_image lib Scanner.module_globals image s
    = (Val (match enhance_steps lib image with Val b => b | Exc _ => image end), s)
    /\ (forall b, enhance_steps lib image = Val b ->
          two_level 0 255 b
          /\ exists gray denoised enhanced t,
               (if (length (shape image) =? 3)%nat
                then cvtColor_BGR2GRAY lib image else Val image) = Val gray
               /\ GaussianBlur lib gray (3%nat, 3%nat) 0 = Val denoised
               /\ CLAHE_apply lib 2 (8%nat, 8%nat) denoised = Val enhanced
               /\ otsu lib enhanced = Val t
               /\ b = binarize t 255 enhanced).
Proof.
  intros lib S image s. split.
  - apply preprocess_image_steps. unfold Scanner.module_globals. set_solver.
  - intros b Hb. unfold enhance_steps, and_then in Hb.
    destruct (if (length (shape image) =? 3)%nat
              then cvtColor_BGR2GRAY lib image else Val image)
      as [gray|?] eqn:Hgray; [|discriminate].
    destruct (GaussianBlur lib gray (3%nat, 3%nat) 0) as [den|?] eqn:Hden;
      [|discriminate].
    destruct (CLAHE_apply lib 2 (8%nat, 8%nat) den) as [enh|?] eqn:Henh;
      [|discriminate].
    destruct (otsu lib enh) as [t|?] eqn:Ht; [|discriminate].
    injection Hb as <-. split; [apply binarize_two_level|].
    exists gray, den, enh, t. auto.
Qed.

(** The theorem at the sample frame: the two pixels 10 and 200, thresholded
    at 100, become 0 and 255. *)
Lemma C8_enhance_algorithm_witness :
  Scanner.preprocess_image Samples.lib Scanner.module_globals Samples.frame tt
  = (Val (NdArray [1%nat; 2%nat] [0; 255]), tt)
  /\ two_level 0 255 (NdArray [1%nat; 2%nat] [0; 255]).
Proof.
  destruct (C8_enhance_algorithm Samples.lib unit Samples.frame tt) as [Hrun Hlev].
  split; [exact Hrun|].
  exact (proj1 (Hlev (NdArray [1%nat; 2%nat] [0; 255]) eq_refl)).
Defined.

End EnhancerFacts.

(** ** Rules for reasoning about statements *)

Module LogicFacts.
Import Py Env Logic.

Section Rules.
Context {S R : Type}.

Lemma wp_ret {A} (a : A) (Q : completion R A -> S -> Prop) s :
  Q (Next a) s -> wp (ret a) Q s.
Proof. exact (fun H => H). Qed.

Lemma wp_return {A} (r : R) (Q : completion R A -> S -> Prop) s :
  Q (Return r) s -> wp (return_ r) Q s.
Proof. exact (fun H => H). Qed.

Lemma wp_raise {A} (e : exn) (Q : completion R A -> S -> Prop) s :
  Q (Raise e) s -> wp (raise e) Q s.
Proof. exact (fun H => H). Qed.

Lemma wp_gets {A} (f : S -> A) (Q : completion R A -> S -> Prop) s :
  Q (Next (f s)) s -> wp (gets f) Q s.
Proof. exact (fun H => H). Qed.

Lemma wp_modify (f : S -> S) (Q : completion R unit -> S -> Prop) s :
  Q (Next tt) (f s) -> wp (modify f) Q s.
Proof. exact (fun H => H). Qed.

Lemma wp_bind {A B} (m : M S R A) (k : A -> M S R B) Q s :
  wp m (fun c s1 =>
          match c with
          | Next a => wp (k a) Q s1
          | Return r => Q (Return r) s1
          | Raise e => Q (Raise e) s1
          end) s ->
  wp (bind m k) Q s.
Proof. unfold wp, bind. destruct (m s) as [[a|r|e] s1]; simpl; auto. Qed.

Lemma wp_try_except {A} (body : M S R A) cls Q s :
  wp body (fun c s1 =>
             match c with
             | Raise e => wp (dispatch cls e) Q s1
             | other => Q other s1
             end) s ->
  wp (try_except body cls) Q s.
Proof. unfold wp, try_except. destruct (body s) as [[a|r|e] s1]; simpl; auto. Qed.

Lemma wp_finally {A} (c : completion R A) (fin : M S R unit) Q s :
  wp fin (fun c1 s1 =>
            match c1 with
            | Next _ => Q c s1
            | Return r => Q (Return r) s1
            | Raise e => Q (Raise e) s1
            end) s ->
  wp (finally_ c fin) Q s.
Proof. unfold wp, finally_. destruct (fin s) as [[a|r|e] s1]; simpl; auto. Qed.

Lemma wp_try_finally {A} (body : M S R A) (fin : M S R unit) Q s :
  wp body (fun c s1 => wp (finally_ c fin) Q s1) s ->
  wp (try_finally body fin) Q s.
Proof. unfold wp at 1 3, try_finally. destruct (body s) as [c s1]; simpl; auto. Qed.

Lemma wp_outer {L A} (m : M S R A) (Q : completion R A -> L * S -> Prop) ls :
  wp m (fun c s1 => Q c (fst ls, s1)) (snd ls) ->
  wp (outer m) Q ls.
Proof. unfold wp, outer. destruct (m (snd ls)) as [c s1]; simpl; auto. Qed.

Lemma wp_with_locals {L A} (init : L) (body : M (L * S) R A) Q s :
  wp body (fun c ls => Q c (snd ls)) (init, s) ->
  wp (with_locals init body) Q s.
Proof.
  unfold wp, with_locals. destruct (body (init, s)) as [c [l s1]]; simpl; auto.
Qed.

Lemma wp_invoke {A} (f : F S A) (Q : completion R A -> S -> Prop) s :
  fwp f (fun o s1 =>
           match o with
           | Val a => Q (Next a) s1
           | Exc e => Q (Raise e) s1
           end) s ->
  wp (invoke f) Q s.
Proof. unfold wp, fwp, invoke. destruct (f s) as [[a|e] s1]; simpl; auto. Qed.

Lemma wp_load_global (G : list string) (name : string)
    (Q : completion R unit -> S -> Prop) s :
  (name ∈ G -> Q (Next tt) s) ->
  (name ∉ G ->
   Q (Raise (Exn NameError ("name '" +:+ name +:+ "' is not defined"))) s) ->
  wp (load_global G name) Q s.
Proof.
  intros Hin Hout. unfold wp, load_global.
  destruct (decide (name ∈ G)) as [H|H].
  - rewrite (bool_decide_eq_true_2 _ H). simpl. auto.
  - rewrite (bool_decide_eq_false_2 _ H). simpl. auto.
Qed.
End Rules.

Lemma fwp_def_total {S R} (body : M S R Empty_set) (Q : outcome R -> S -> Prop) s :
  wp body (fun c s1 =>
             match c with
             | Next _ => False
             | Return r => Q (Val r) s1
             | Raise e => Q (Exc e) s1
             end) s ->
  fwp (def_total body) Q s.
Proof.
  unfold wp, fwp, def_total. destruct (body s) as [[a|r|e] s1]; simpl; auto.
  destruct a.
Qed.

(** The camera primitives leave the files, the set of files that cannot be
    removed and the clock alone. *)
Section Camera.
Context {R : Type}.

Lemma disk_update_camera i f w : disk (update_camera i f w) = disk w.
Proof. reflexivity. Qed.

Lemma wp_VideoCapture_new i (Q : completion R VideoCapture -> World -> Prop) w :
  (forall cap w1, disk w1 = disk w -> Q (Next cap) w1) ->
  wp (VideoCapture_new i) Q w.
Proof.
  intros H. unfold wp, VideoCapture_new.
  destruct (cameras w !! i) as [cam|]; [destruct (cam_opens cam)|];
    simpl; apply H; reflexivity.
Qed.

Lemma wp_cap_set cap prop value (Q : completion R unit -> World -> Prop) w :
  (forall w1, disk w1 = disk w -> Q (Next tt) w1) ->
  wp (cap_set cap prop value) Q w.
Proof. intros H. unfold wp, cap_set, modify; simpl. apply H. reflexivity. Qed.

Lemma wp_cap_read cap (Q : completion R (bool * option ndarray) -> World -> Prop) w :
  (forall rf w1, disk w1 = disk w -> Q (Next rf) w1) ->
  (forall e w1, disk w1 = disk w -> Q (Raise e) w1) ->
  wp (cap_read cap) Q w.
Proof.
  intros Hn He. unfold wp, cap_read.
  destruct (cap_opened cap); [|simpl; apply Hn; reflexivity].
  destruct (cameras w !! cap_index cap) as [cam|]; [|simpl; apply Hn; reflexivity].
  destruct (cam_reads cam) as [|[rf|e] rest]; simpl;
    [apply Hn | apply Hn | apply He]; reflexivity.
Qed.

Lemma wp_cap_release cap (Q : completion R unit -> World -> Prop) w :
  (forall w1, disk w1 = disk w -> Q (Next tt) w1) ->
  wp (cap_release cap) Q w.
Proof.
  intros H. unfold wp, cap_release.
  destruct (cap_opened cap); simpl; apply H; reflexivity.
Qed.

(** The same primitives at a device that is there and opens: what they
    return, and what the device has left to give. *)
Lemma reads_at_update (i : Z) (f : Camera -> Camera) (w : World) rs rs' :
  reads_at w i rs ->
  (forall cam, cam_opens (f cam) = cam_opens cam) ->
  (forall cam, cam_reads cam = rs -> cam_reads (f cam) = rs') ->
  reads_at (update_camera i f w) i rs'.
Proof.
  intros (cam & Hcam & Hopens & Hreads) Hfo Hfr. exists (f cam).
  unfold update_camera. cbn [cameras set_cameras].
  rewrite lookup_alter_eq, Hcam. rewrite Hfo. auto.
Qed.

Lemma wp_VideoCapture_new_at i rs
    (Q : completion R VideoCapture -> World -> Prop) w :
  reads_at w i rs ->
  (forall w1, disk w1 = disk w -> reads_at w1 i rs -> Q (Next (Cap i true)) w1) ->
  wp (VideoCapture_new i) Q w.
Proof.
  intros Hat H. pose proof Hat as (cam & Hcam & Hopens & Hreads).
  unfold wp, VideoCapture_new. rewrite Hcam, Hopens. simpl.
  apply H; [reflexivity|].
  eapply reads_at_update; [exact Hat|reflexivity|auto].
Qed.

Lemma wp_cap_set_at cap prop value rs
    (Q : completion R unit -> World -> Prop) w :
  reads_at w (cap_index cap) rs ->
  (forall w1, disk w1 = disk w -> reads_at w1 (cap_index cap) rs ->
              Q (Next tt) w1) ->
  wp (cap_set cap prop value) Q w.
Proof.
  intros Hat H. unfold wp, cap_set, modify; simpl.
  apply H; [reflexivity|].
  eapply reads_at_update; [exact Hat|reflexivity|auto].
Qed.

Lemma wp_cap_read_at cap r rest
    (Q : completion R (bool * option ndarray) -> World -> Prop) w :
  cap_opened cap = true ->
  reads_at w (cap_index cap) (r :: rest) ->
  (forall w1, disk w1 = disk w -> reads_at w1 (cap_index cap) rest ->
              match r with
              | Val rf => Q (Next rf) w1
              | Exc e => Q (Raise e) w1
              end) ->
  wp (cap_read cap) Q w.
Proof.
  intros Hopened Hat H. pose proof Hat as (cam & Hcam & Hopens & Hreads).
  unfold wp, cap_read. rewrite Hopened, Hcam, Hreads.
  assert (Hat' : reads_at
            (update_camera (cap_index cap)
               (fun c => {| cam_opens := cam_opens c; cam_reads := rest;
                            cam_props := cam_props c; cam_held := cam_held c |}) w)
            (cap_index cap) rest).
  { eapply reads_at_update; [exact Hat|reflexivity|auto]. }
  specialize (H _ (disk_update_camera _ _ w) Hat').
  destruct r as [rf|e]; exact H.
Qed.

Lemma wp_cap_release_at cap rs (Q : completion R unit -> World -> Prop) w :
  reads_at w (cap_index cap) rs ->
  (forall w1, disk w1 = disk w -> reads_at w1 (cap_index cap) rs ->
              Q (Next tt) w1) ->
  wp (cap_release cap) Q w.
Proof.
  intros Hat H. unfold wp, cap_release.
  destruct (cap_opened cap); simpl.
  - apply H; [reflexivity|].
    eapply reads_at_update; [exact Hat|reflexivity|auto].
  - apply H; [reflexivity|exact Hat].
Qed.

Lemma wp_cv2_imwrite_eq lib path img (Q : completion R bool -> World -> Prop) w :
  (forall r, imwrite_result lib path img = r ->
             match r with
             | Val true => Q (Next true) (set_files (<[path := img]> (files w)) w)
             | Val false => Q (Next false) w
             | Exc e => Q (Raise e) w
             end) ->
  wp (cv2_imwrite lib path img) Q w.
Proof.
  intros H. specialize (H _ eq_refl). unfold wp, cv2_imwrite.
  destruct (imwrite_result lib path img) as [[|]|e]; exact H.
Qed.

Lemma wp_cv2_imwrite lib path img (Q : completion R bool -> World -> Prop) w :
  Q (Next true) (set_files (<[path := img]> (files w)) w) ->
  Q (Next false) w ->
  (forall e, Q (Raise e) w) ->
  wp (cv2_imwrite lib path img) Q w.
Proof.
  intros Ht Hf He. unfold wp, cv2_imwrite.
  destruct (imwrite_result lib path img) as [[|]|e]; simpl; auto.
Qed.
End Camera.

End LogicFacts.

(** ** scanner.py *)

Module ScannerFacts.
Import Py Env Logic LogicFacts.

Lemma preprocess_image_returns (lib : Libs) (G : list string) (S : Type)
    (image : ndarray) (s : S) :
  exists out, Scanner.preprocess_image lib G image s = (Val out, s).
Proof.
  destruct (decide ("cv2" ∈ G)) as [HG|HG].
  - rewrite (EnhancerFacts.preprocess_image_steps lib G S image s HG). eauto.
  - exists image.
    unfold Scanner.preprocess_image, Scanner.cv2, load_global.
    rewrite (bool_decide_eq_false_2 _ HG).
    unfold def_total, try_except, bind, ret, raise; simpl.
    destruct (length (shape image) =? 3)%nat; reflexivity.
Qed.

(** One step of symbolic execution of a statement of scanner.py. *)
Ltac wp_step :=
  lazymatch goal with
  | |- wp _ (fun c s => @?P c s) _ => let q := fresh "Q" in set (q := fun c s => P c s)
  | |- wp (bind _ _) _ _ => apply wp_bind
  | |- wp (outer _) _ _ => apply wp_outer
  | |- wp (Scanner.cv2 _ _) _ _ => unfold Scanner.cv2
  | |- wp (load_global _ _) _ _ => apply wp_load_global; intros ?
  | |- wp (VideoCapture_new _) _ _ => apply wp_VideoCapture_new; intros ? ? ?
  | |- wp (cap_set _ _ _) _ _ => apply wp_cap_set; intros ? ?
  | |- wp (cap_read _) _ _ => apply wp_cap_read; [intros [? ?] ? ? | intros ? ? ?]
  | |- wp (cap_release _) _ _ => apply wp_cap_release; intros ? ?
  | |- wp (cv2_imwrite _ _ _) _ _ => apply wp_cv2_imwrite; [| | intros ?]
  | |- wp (when _ _) _ _ => unfold when
  | |- wp (for_in _ _) _ _ => cbn [for_in]
  | |- wp (try_except _ _) _ _ => apply wp_try_except
  | |- wp (try_finally _ _) _ _ => apply wp_try_finally
  | |- wp (finally_ _ _) _ _ => apply wp_finally
  | |- wp (with_locals _ _) _ _ => apply wp_with_locals
  | |- wp (dispatch _ _) _ _ => unfold except_Exception; cbn [dispatch]
  | |- wp Scanner.release_if_set _ _ => unfold Scanner.release_if_set
  | |- wp (let (_, _) := ?p in _) _ _ => destruct p
  | |- wp (if ?c then _ else _) _ _ => destruct c eqn:?
  | |- wp (match ?o with Some _ => _ | None => _ end) _ _ => destruct o eqn:?
  | |- wp (ret _) _ _ => apply wp_ret
  | |- wp (return_ _) _ _ => apply wp_return
  | |- wp (raise _) _ _ => apply wp_raise
  | |- wp (gets _) _ _ => apply wp_gets
  | |- wp get_local _ _ => unfold get_local
  | |- wp (set_local _) _ _ => unfold set_local
  | |- wp (modify _) _ _ => apply wp_modify
  | |- wp time_sleep _ _ => unfold time_sleep
  | |- wp (invoke (Scanner.preprocess_image ?lib ?G ?f)) _ ?s =>
      apply wp_invoke; unfold fwp;
      let out := fresh "out" in let E := fresh "E" in
      destruct (preprocess_image_returns lib G _ f s) as [out E];
      rewrite E; clear E; cbn [fst snd]
  | |- ?q _ _ => is_var q; unfold q; try clear q; cbv beta iota; cbn [fst snd negb]
  end.

Lemma disk_inv (a b : World) :
  disk a = disk b ->
  files a = files b /\ undeletable a = undeletable b /\ clock a = clock b
  /\ tempdir a = tempdir b /\ now_stamp a = now_stamp b.
Proof. unfold disk. intros H. injection H. auto. Qed.

Ltac disk_facts :=
  cbn [fst snd] in *;
  repeat match goal with
         | H : disk _ = disk _ |- _ =>
             let Hf := fresh "Hfiles" in
             let Hu := fresh "Hundel" in
             let Hc := fresh "Hclock" in
             let Ht := fresh "Htempdir" in
             let Hs := fresh "Hstamp" in
             pose proof (disk_inv _ _ H) as [Hf [Hu [Hc [Ht Hs]]]]; clear H;
             cbn [files undeletable clock tempdir now_stamp set_files]
               in Hf, Hu, Hc, Ht, Hs
         end.

(** Closes the goals that symbolic execution of the capture leaves. *)
Ltac capture_done :=
  disk_facts; unfold capture_post;
  cbn [files undeletable clock set_files];
  split; [congruence|]; split; [congruence|];
  first [ right; eexists; split; [reflexivity|]; split;
          [let Hne := fresh "Hne" in simpl; intros Hne; discriminate Hne
          | congruence]
        | left; eexists _, _; split; [reflexivity|]; split;
          [ match goal with
            | H : files _ = <[_ := _]> _ |- _ => rewrite H
            end;
            match goal with
            | |- <[_ := _]> ?a = <[_ := _]> ?b =>
                replace a with b by congruence; reflexivity
            end
          | assumption ] ].

Lemma capture_spec (lib : Libs) (G : list string)
    (camera_index : Z) (resolution : Z * Z) (timeout : Z) (w : World) :
  fwp (Scanner.capture_and_process_image lib G camera_index resolution timeout)
      (fun o w1 =>
         match o with
         | Val r => capture_post G w r w1
         | Exc _ => False
         end) w.
Proof.
  unfold Scanner.capture_and_process_image.
  apply fwp_def_total.
  unfold range; cbn [seq].
  repeat wp_step; capture_done.
Qed.

(** The capture function returns; it never raises. *)
Lemma capture_returns (lib : Libs) (G : list string)
    (camera_index : Z) (resolution : Z * Z) (timeout : Z) (w : World) :
  exists r w1,
    Scanner.capture_and_process_image lib G camera_index resolution timeout w
    = (Val r, w1)
    /\ capture_post G w r w1.
Proof.
  pose proof (capture_spec lib G camera_index resolution timeout w) as H.
  unfold fwp in H.
  destruct (Scanner.capture_and_process_image lib G camera_index resolution
              timeout w) as [[r|e] w1]; simpl in H; [eauto | contradiction].
Qed.

Lemma time_not_bound : "time" ∉ Scanner.module_globals.
Proof. apply (bool_decide_eq_false_1 _). vm_compute. reflexivity. Qed.

(** C3. Warm-up capture, as the module is written: [time.sleep] in the
    warm-up loop needs the name [time], which scanner.py does not import, so
    that the first frame read is followed by a [NameError]; the capture
    function never returns a frame.  Whatever the libraries and the world,
    it returns no path and a message. *)
Theorem C3_capture_never_returns_a_frame :
  forall (lib : Libs) (camera_index : Z) (resolution : Z * Z) (timeout : Z)
         (w : World),
    exists e w1,
      Scanner.capture_and_process_image lib Scanner.module_globals
        camera_index resolution timeout w
      = (Val (None, Some e), w1).
Proof.
  intros lib camera_index resolution timeout w.
  destruct (capture_returns lib Scanner.module_globals camera_index resolution
              timeout w) as (r & w1 & Hrun & _ & _ & [Hok | Hfail]).
  - destruct Hok as (p & img & _ & _ & Htime).
    destruct (time_not_bound Htime).
  - destruct Hfail as (e & -> & _ & _). eauto.
Qed.

(** A name is looked up in a list of globals that is known. *)
Ltac bound_or_not H :=
  first [ exfalso; revert H; apply (bool_decide_eq_false_1 _);
          vm_compute; reflexivity
        | exfalso; apply H; apply (bool_decide_eq_true_1 _);
          vm_compute; reflexivity
        | idtac ].

(** One step of symbolic execution at a device that is there. *)
Ltac wp_exact :=
  lazymatch goal with
  | |- wp (VideoCapture_new _) _ _ =>
      eapply wp_VideoCapture_new_at; [eassumption | intros ? ? ?]
  | |- wp (cap_set _ _ _) _ _ =>
      eapply wp_cap_set_at; [eassumption | intros ? ? ?]
  | |- wp (cap_read _) _ _ =>
      eapply wp_cap_read_at; [reflexivity | eassumption | intros ? ? ?]
  | |- wp (cap_release _) _ _ =>
      eapply wp_cap_release_at; [eassumption | intros ? ? ?]
  | |- wp (load_global _ _) _ _ =>
      let H := fresh "Hname" in
      apply wp_load_global; intros H; bound_or_not H
  | |- wp (cv2_imwrite _ _ _) _ _ =>
      let r := fresh "r" in
      let H := fresh "Hwritten" in
      apply wp_cv2_imwrite_eq; intros r H; destruct r as [[|]|?]
  | |- wp (invoke (Scanner.preprocess_image ?lib ?G ?f)) _ ?s =>
      apply wp_invoke; unfold fwp;
      rewrite (EnhancerFacts.preprocess_image_steps lib G _ f s)
        by (apply (bool_decide_eq_true_1 _); vm_compute; reflexivity);
      cbn [fst snd]
  | |- wp (when _ _) _ _ => unfold when; cbn [negb cap_opened fst snd]
  | |- match _ with Val _ => _ | Exc _ => _ end => cbv beta iota
  | |- _ => wp_step
  end.

(** Rewrites what is known of the later worlds into the first one. *)
Ltac to_initial_world :=
  repeat match goal with
         | H : ?f ?a = ?f ?b |- _ => try rewrite H in *; clear H
         end.

(** A camera that opens and whose first read succeeds: the [NameError]
    of the [time.sleep] after that read is what the capture reports. *)
Lemma capture_NameError_after_first_read (lib : Libs)
    (camera_index : Z) (resolution : Z * Z) (timeout : Z) (w : World)
    (frame : option ndarray) (rest : list (outcome (bool * option ndarray))) :
  reads_at w camera_index (Val (true, frame) :: rest) ->
  fwp (Scanner.capture_and_process_image lib Scanner.module_globals
         camera_index resolution timeout)
      (fun o w1 =>
         o = Val (None, Some "Capture error: name 'time' is not defined")
         /\ disk w1 = disk w /\ reads_at w1 camera_index rest) w.
Proof.
  intros Hat.
  unfold Scanner.capture_and_process_image.
  apply fwp_def_total.
  unfold range; cbn [seq].
  repeat wp_exact.
  cbn [fst snd cap_index] in *.
  split; [reflexivity|]. split; [congruence|assumption].
Qed.

(** With the name [time] bound, at a camera that opens and whose first six
    reads succeed, the sixth with a frame, and with [cv2.imwrite]
    succeeding: the capture discards five frames and returns, with no
    error, the path of the file in which it has saved the sixth frame,
    enhanced; the device has given six frames. *)
Lemma capture_with_time_returns_sixth_frame (lib : Libs)
    (camera_index : Z) (resolution : Z * Z) (timeout : Z) (w : World)
    (f1 f2 f3 f4 f5 : option ndarray) (frame : ndarray)
    (rest : list (outcome (bool * option ndarray))) :
  let G := "time" :: Scanner.module_globals in
  let processed :=
    match enhance_steps lib frame with Val b => b | Exc _ => frame end in
  let path :=
    os_path_join (tempdir w) ("document_scan_" +:+ now_stamp w +:+ ".jpg") in
  reads_at w camera_index
    (Val (true, f1) :: Val (true, f2) :: Val (true, f3) :: Val (true, f4)
     :: Val (true, f5) :: Val (true, Some frame) :: rest) ->
  imwrite_result lib path processed = Val true ->
  fwp (Scanner.capture_and_process_image lib G camera_index resolution timeout)
      (fun o w1 =>
         o = Val (Some path, None)
         /\ files w1 = <[path := processed]> (files w)
         /\ reads_at w1 camera_index rest) w.
Proof.
  intros G processed path Hat Hwrite.
  unfold Scanner.capture_and_process_image.
  apply fwp_def_total.
  unfold range; cbn [seq].
  repeat wp_exact.
  all: cbn [fst snd cap_index] in *; disk_facts; to_initial_world;
    unfold path, processed in *; subst G.
  - split; [reflexivity|]. split; assumption.
  - congruence.
  - congruence.
Qed.

(** The capture at a camera that opens and whose six reads succeed: the
    message is the [NameError] of the warm-up loop. *)
Example capture_sample_world :
  fst (Scanner.capture_and_process_image Samples.lib Scanner.module_globals
         App.CAMERA_INDEX App.CAMERA_RESOLUTION App.SCAN_TIMEOUT Samples.world)
  = Val (None, Some "Capture error: name 'time' is not defined").
Proof. vm_compute. reflexivity. Qed.

(** With [time] bound, the same capture discards five frames and returns
    the path of the sixth, enhanced and saved. *)
Example capture_sample_world_with_time :
  let r := Scanner.capture_and_process_image Samples.lib
             Samples.globals_with_time
             App.CAMERA_INDEX App.CAMERA_RESOLUTION App.SCAN_TIMEOUT
             Samples.world in
  fst r = Val (Some Samples.image_path, None)
  /\ files (snd r) !! Samples.image_path = Some (NdArray [1%nat; 2%nat] [0; 255]).
Proof. vm_compute. split; reflexivity. Qed.

End ScannerFacts.

(** ** ocr_processor.py *)

Module OcrFacts.
Import Py Env Logic.

Lemma append_cons (c : ascii) (a b : string) :
  String c a +:+ b = String c (a +:+ b).
Proof. reflexivity. Qed.

Lemma lstrip_split (s : string) :
  exists pre, s = pre +:+ lstrip s /\ all_space pre = true.
Proof.
  induction s as [|c rest [pre [Heq Hsp]]].
  - exists EmptyString. auto.
  - cbn [lstrip]. destruct (isspace c) eqn:Hc.
    + exists (String c pre). rewrite append_cons, <- Heq. cbn [all_space].
      rewrite Hc, Hsp. auto.
    + exists EmptyString. auto.
Qed.

Lemma lstrip_first (s : string) (c : ascii) :
  first_char (lstrip s) = Some c -> isspace c = false.
Proof.
  induction s as [|a rest IH]; simpl; [discriminate|].
  destruct (isspace a) eqn:Ha; [exact IH|].
  simpl. intros [= <-]. exact Ha.
Qed.

Lemma rstrip_split (s : string) :
  exists suf, s = rstrip s +:+ suf /\ all_space suf = true.
Proof.
  induction s as [|c rest [suf [Heq Hsp]]].
  - exists EmptyString. auto.
  - cbn [rstrip]. destruct (rstrip rest) as [|k kept] eqn:Hr.
    + destruct (isspace c) eqn:Hc.
      * exists (String c suf). cbn [all_space]. rewrite Hc, Hsp.
        split; [|reflexivity]. rewrite Heq at 1. reflexivity.
      * exists suf. rewrite append_cons. split; [|exact Hsp].
        rewrite Heq at 1. reflexivity.
    + exists suf. rewrite append_cons, <- Heq. auto.
Qed.

Lemma rstrip_last (s : string) (c : ascii) :
  last_char (rstrip s) = Some c -> isspace c = false.
Proof.
  induction s as [|a rest IH]; simpl; [discriminate|].
  destruct (rstrip rest) as [|k kept] eqn:Hr.
  - destruct (isspace a) eqn:Ha; simpl; [discriminate|].
    intros [= <-]. exact Ha.
  - simpl. exact IH.
Qed.

Lemma rstrip_first (s : string) (c : ascii) :
  first_char (rstrip s) = Some c -> first_char s = Some c.
Proof.
  destruct s as [|a rest]; simpl; [discriminate|].
  destruct (rstrip rest); [destruct (isspace a)|]; simpl; congruence.
Qed.

(** [strip] removes white space at both ends and nothing else. *)
Lemma strip_spec (s : string) :
  (exists pre suf,
     s = pre +:+ strip s +:+ suf /\ all_space pre = true /\ all_space suf = true)
  /\ trimmed (strip s).
Proof.
  unfold strip. split.
  - destruct (lstrip_split s) as [pre [Hpre Hsp]].
    destruct (rstrip_split (lstrip s)) as [suf [Hsuf Hss]].
    exists pre, suf. split; [|auto]. rewrite <- Hsuf. exact Hpre.
  - split; intros c Hc.
    + apply (lstrip_first s). apply rstrip_first. exact Hc.
    + apply (rstrip_last (lstrip s)). exact Hc.
Qed.

Section OcrImage.
Variable lib : Libs.

(** The function returns, leaves the world as it is, and what it returns
    depends on the files only. *)
Lemma ocr_image_eq (p : option string) (lang config : string) (w : World) :
  OcrProcessor.ocr_image lib p lang config w
  = (Val (ocr_result lib (files w) p lang config), w).
Proof.
  unfold OcrProcessor.ocr_image, OcrProcessor.PIL_Image_open, os_path_exists,
    ocr_result, and_then,
    def_total, try_except, bind, gets, when, of_outcome, ret, return_, raise.
  destruct p as [p|]; [|reflexivity].
  destruct (files w !! p) as [content|] eqn:Hf.
  2:{ rewrite bool_decide_eq_false_2 by (intros [? ?]; discriminate).
      reflexivity. }
  rewrite bool_decide_eq_true_2 by eauto.
  cbn [negb fst snd]. cbv beta iota. rewrite Hf.
  destruct (Image_open lib content) as [img0|e]; [|reflexivity].
  cbv beta iota.
  destruct (negb (String.eqb (mode img0) "RGB"));
    [destruct (Image_convert lib img0 "RGB") as [img|e]; [|reflexivity]|];
    cbv beta iota;
    match goal with
    | |- context [image_to_string lib ?i ?l ?c] =>
        destruct (image_to_string lib i l c) as [raw|e]
    end; reflexivity.
Qed.

(** Its messages are not empty. *)
Lemma ocr_image_error_nonempty (p : option string) (lang config : string)
    (w w1 : World) (text : option string) (e : string) :
  OcrProcessor.ocr_image lib p lang config w = (Val (text, Some e), w1) ->
  e <> EmptyString.
Proof.
  rewrite ocr_image_eq. unfold ocr_result.
  destruct p as [p|]; [|intros [= <- <- _]; discriminate].
  destruct (files w !! p); [|intros [= <- <- _]; discriminate].
  match goal with |- context [match ?o with Val _ => _ | Exc _ => _ end] =>
    destruct o end; intros [= <- <- _]; discriminate.
Qed.

(** What the engine reads in the file at [p]: the file is there, [PIL]
    opens it and converts it to RGB when it is not, and Tesseract returns
    [raw]. *)
Lemma ocr_image_reads (p : string) (lang config : string) (w : World)
    (content : ndarray) (img0 img : PILImage) (raw : string) :
  files w !! p = Some content ->
  Image_open lib content = Val img0 ->
  (if negb (String.eqb (mode img0) "RGB")
   then Image_convert lib img0 "RGB" else Val img0) = Val img ->
  image_to_string lib img lang
    (if truthy (Some config) then config else "--psm 6") = Val raw ->
  OcrProcessor.ocr_image lib (Some p) lang config w
  = (Val (Some (strip raw), None), w).
Proof.
  intros Hfile Hopen Hconv Hread.
  rewrite ocr_image_eq. unfold ocr_result, and_then.
  rewrite Hfile, Hopen, Hconv, Hread. reflexivity.
Qed.

(** When the engine is missing, [image_to_string] raises
    [TesseractNotFoundError] inside the inner [try], whose
    [except Exception] clause takes it: the message returned is the one of
    an image processing error with the text of the exception, the same as
    for any other exception with that text; the clause written for the
    missing engine is not reached. *)
Lemma ocr_image_engine_missing (p : string) (lang config : string) (w : World)
    (content : ndarray) (img0 img : PILImage) (cls : exn_class) (msg : string) :
  files w !! p = Some content ->
  Image_open lib content = Val img0 ->
  (if negb (String.eqb (mode img0) "RGB")
   then Image_convert lib img0 "RGB" else Val img0) = Val img ->
  image_to_string lib img lang
    (if truthy (Some config) then config else "--psm 6")
  = Exc (Exn cls msg) ->
  OcrProcessor.ocr_image lib (Some p) lang config w
  = (Val (None, Some ("Image processing error: " +:+ msg)), w).
Proof.
  intros Hfile Hopen Hconv Hread.
  rewrite ocr_image_eq. unfold ocr_result, and_then.
  rewrite Hfile, Hopen, Hconv, Hread. reflexivity.
Qed.
End OcrImage.

End OcrFacts.

(** ** app.py: the status query *)

Module StatusFacts.
Import Py Env App Logic.

(** C10. The status query: when the probe returns [True] the report gives
    the configured resolution (1920, 1080), status "online" and
    [camera_online] true; when it returns [False] the report gives no
    resolution, status "offline" and [camera_online] false; when it raises,
    the report gives status "error" with the text of the exception, and
    nothing is raised.  The query touches the world through the probe only:
    the device is not asked for its resolution. *)
Theorem C10_status_query :
  forall (probe : Z -> F World bool) (w : World),
    match probe CAMERA_INDEX w with
    | (Val true, w1) =>
        get_camera_status probe w
        = (Val {[ "camera_online" := VBool true;
                  "resolution" := VTuple [1920; 1080];
                  "status" := VStr "online" ]}, w1)
    | (Val false, w1) =>
        get_camera_status probe w
        = (Val {[ "camera_online" := VBool false;
                  "resolution" := VNone;
                  "status" := VStr "offline" ]}, w1)
    | (Exc e, w1) =>
        get_camera_status probe w
        = (Val {[ "camera_online" := VBool false;
                  "resolution" := VNone;
                  "status" := VStr "error";
                  "error" := VStr (exn_str e) ]}, w1)
    end.
Proof.
  intros probe w.
  unfold get_camera_status, def_total, try_except, bind, invoke, return_.
  destruct (probe CAMERA_INDEX w) as [[[|]|e] w1]; reflexivity.
Qed.

(** The theorem at the probe of scanner.py with the sample camera, and at
    a probe that raises. *)
Lemma C10_status_query_witness :
  fst (get_camera_status (Scanner.check_camera_available Scanner.module_globals)
         Samples.world)
  = Val {[ "camera_online" := VBool true;
           "resolution" := VTuple [1920; 1080];
           "status" := VStr "online" ]}
  /\ fst (get_camera_status Samples.probe_raises Samples.world)
     = Val {[ "camera_online" := VBool false;
              "resolution" := VNone;
              "status" := VStr "error";
              "error" := VStr "camera driver crashed" ]}.
Proof.
  split.
  - generalize (C10_status_query
                  (Scanner.check_camera_available Scanner.module_globals)
                  Samples.world).
    destruct (Scanner.check_camera_available Scanner.module_globals
                CAMERA_INDEX Samples.world) as [[[|]|e] w1] eqn:E;
      intros H; try (vm_compute in E; discriminate E).
    rewrite H. reflexivity.
  - generalize (C10_status_query Samples.probe_raises Samples.world).
    destruct (Samples.probe_raises CAMERA_INDEX Samples.world)
      as [[[|]|e] w1] eqn:E;
      intros H; try discriminate E.
    rewrite H. injection E as <- _. reflexivity.
Defined.

End StatusFacts.

(** ** app.py: the scan pipeline *)

Module PipelineFacts.
Import Py Env App Logic.

(** The cleanup block falls through whatever happens in it. *)
Lemma remove_temporary_image_eq (p : option string) (g : Globals) (w : World) :
  remove_temporary_image p (g, w) = (Next tt, (g, after_cleanup p w)).
Proof.
  unfold remove_temporary_image, after_cleanup, os_path_exists, os_remove,
    try_except, bind, outer, when, gets, raise, ret.
  destruct p as [q|]; [|reflexivity].
  cbn [fst snd].
  destruct (bool_decide (is_Some (files w !! q))) eqn:Hex; cbn [fst snd andb];
    [|reflexivity].
  destruct (bool_decide (q ∈ undeletable w)); [reflexivity|].
  rewrite Hex. reflexivity.
Qed.

Lemma after_cleanup_clock (p : option string) (w : World) :
  clock (after_cleanup p w) = clock w.
Proof.
  unfold after_cleanup. destruct p as [q|]; [|reflexivity].
  destruct (_ && _); reflexivity.
Qed.

Lemma after_cleanup_removed (q : string) (w : World) :
  q ∉ undeletable w -> files (after_cleanup (Some q) w) !! q = None.
Proof.
  intros Hq. unfold after_cleanup.
  rewrite (bool_decide_eq_false_2 _ Hq).
  destruct (bool_decide (is_Some (files w !! q))) eqn:Hex; cbn [andb negb].
  - cbn [files set_files]. apply lookup_delete_eq.
  - apply bool_decide_eq_false_1 in Hex.
    destruct (files w !! q) eqn:Hf; [|reflexivity].
    destruct Hex. eauto.
Qed.

Lemma after_cleanup_other (p : option string) (q : string) (w : World) :
  files w !! q = None -> files (after_cleanup p w) !! q = None.
Proof.
  intros Hq. unfold after_cleanup. destruct p as [r|]; [|exact Hq].
  destruct (_ && _); [|exact Hq].
  cbn [files set_files].
  destruct (decide (r = q)) as [->|Hne].
  - apply lookup_delete_eq.
  - rewrite lookup_delete_ne by exact Hne. exact Hq.
Qed.

Section Pipeline.
Variable capture_and_process_image
  : Z -> Z * Z -> Z -> F World (option string * option string).
Variable ocr_image
  : option string -> string -> string -> F World (option string * option string).

Local Abbreviation perform_scan_try :=
  (App.perform_scan_try capture_and_process_image ocr_image).
Local Abbreviation perform_scan :=
  (App.perform_scan capture_and_process_image ocr_image).

(** The [try] part, by the results of the two calls. *)
Lemma perform_scan_try_eq (g : Globals) (w : World) :
  perform_scan_try (g, w)
  = match capture_and_process_image CAMERA_INDEX CAMERA_RESOLUTION SCAN_TIMEOUT w with
    | (Exc e, w1) =>
        (Next tt,
         (publish (scan_result "" (clock w1) false
                     (VStr ("Unexpected error: " +:+ exn_str e))) g, w1))
    | (Val (image_path, capture_error), w1) =>
        if truthy capture_error
        then (Return tt,
              (publish (scan_result "" (clock w1) false
                          (VStr ("Capture failed: " +:+ fmt capture_error))) g,
               w1))
        else
          match ocr_image image_path OCR_LANGUAGE OCR_CONFIG w1 with
          | (Exc e, w2) =>
              (Next tt,
               (publish (scan_result "" (clock w2) false
                           (VStr ("Unexpected error: " +:+ exn_str e))) g, w2))
          | (Val (text, ocr_error), w2) =>
              (Next tt,
               (publish
                  (if truthy ocr_error
                   then scan_result "" (clock w2) false
                          (VStr ("OCR failed: " +:+ fmt ocr_error))
                   else scan_result (str_or text "No text detected")
                          (clock w2) true VNone) g,
                after_cleanup image_path w2))
          end
    end.
Proof.
  unfold App.perform_scan_try, try_except, bind at 1, outer at 1, invoke at 1.
  cbn [fst snd].
  destruct (capture_and_process_image CAMERA_INDEX CAMERA_RESOLUTION
              SCAN_TIMEOUT w) as [[[image_path capture_error]|e] w1];
    [|reflexivity].
  cbn [fst snd]. unfold bind at 1, ret at 1. unfold bind at 1, ret at 1.
  unfold bind at 1, when.
  destruct (truthy capture_error); [reflexivity|].
  unfold ret at 1. unfold bind at 1, outer at 1, invoke at 1. cbn [fst snd].
  destruct (ocr_image image_path OCR_LANGUAGE OCR_CONFIG w1)
    as [[[text ocr_error]|e] w2]; [|reflexivity].
  cbn [fst snd]. unfold bind at 1, ret at 1. unfold bind at 1, ret at 1.
  unfold bind at 1. rewrite remove_temporary_image_eq.
  destruct (truthy ocr_error);
    unfold bind, outer, time_time, gets, set_last_scan_result, modify,
      publish, scan_result; cbn [fst snd]; rewrite after_cleanup_clock;
    reflexivity.
Qed.

(** The whole function: the [try] part, then the flag is cleared, and the
    call returns [None]. *)
Lemma perform_scan_eq (m : Machine) :
  perform_scan m
  = (Val tt,
     ({| last_scan_result := last_scan_result (fst (snd (perform_scan_try m)));
         scan_in_progress := false |},
      snd (snd (perform_scan_try m)))).
Proof.
  unfold App.perform_scan, def, try_finally, finally_, perform_scan_finally,
    set_scan_in_progress, modify.
  destruct (perform_scan_try m) as [[[]|[]|e] [g1 w1]] eqn:Htry;
    try reflexivity.
  exfalso. destruct m as [g w]. rewrite perform_scan_try_eq in Htry.
  destruct (capture_and_process_image _ _ _ w) as [[[? ce]|?] ?];
    [destruct (truthy ce);
     [|destruct (ocr_image _ _ _ _) as [[[? ?]|?] ?]]|]; discriminate.
Qed.
End Pipeline.

(** C2. Terminal publication: whatever the capture and the recognition
    do, raising included, the [try] part of [perform_scan] ends without an
    exception, having stored a complete scan result (text, time stamp,
    success, error) and left the flag as it was; the [finally] part then
    clears the flag, and the call returns normally. *)
Theorem C2_terminal_publication :
  forall (capture : Z -> Z * Z -> Z -> F World (option string * option string))
         (ocr : option string -> string -> string
                -> F World (option string * option string))
         (m : Machine),
    exists c m1,
      perform_scan_try capture ocr m = (c, m1)
      /\ (forall e, c <> Raise e)
      /\ complete_result (last_scan_result (fst m1))
      /\ scan_in_progress (fst m1) = scan_in_progress (fst m)
      /\ perform_scan capture ocr m
         = (Val tt, ({| last_scan_result := last_scan_result (fst m1);
                        scan_in_progress := false |}, snd m1)).
Proof.
  intros capture ocr [g w].
  rewrite perform_scan_eq, perform_scan_try_eq.
  unfold complete_result.
  destruct (capture CAMERA_INDEX CAMERA_RESOLUTION SCAN_TIMEOUT w)
    as [[[image_path capture_error]|e] w1].
  - destruct (truthy capture_error).
    + do 2 eexists. split; [reflexivity|]. cbn [fst snd publish last_scan_result scan_in_progress].
      repeat split; try discriminate. do 4 eexists. eauto.
    + destruct (ocr image_path OCR_LANGUAGE OCR_CONFIG w1)
        as [[[text ocr_error]|e] w2].
      * do 2 eexists. split; [reflexivity|].
        cbn [fst snd publish last_scan_result scan_in_progress].
        repeat split; try discriminate.
        destruct (truthy ocr_error); do 4 eexists; eauto.
      * do 2 eexists. split; [reflexivity|].
        cbn [fst snd publish last_scan_result scan_in_progress].
        repeat split; try discriminate. do 4 eexists. eauto.
  - do 2 eexists. split; [reflexivity|].
    cbn [fst snd publish last_scan_result scan_in_progress].
    repeat split; try discriminate. do 4 eexists. eauto.
Qed.

(** The theorem at the sample world, run as the modules are written. *)
Lemma C2_terminal_publication_witness :
  perform_scan (Scanner.capture_and_process_image Samples.lib Scanner.module_globals)
    (OcrProcessor.ocr_image Samples.lib) (initial_globals, Samples.world)
  = (Val tt,
     ({| last_scan_result :=
           scan_result "" 7 false
             (VStr "Capture failed: Capture error: name 'time' is not defined");
         scan_in_progress := false |},
      snd (Scanner.capture_and_process_image Samples.lib Scanner.module_globals
             CAMERA_INDEX CAMERA_RESOLUTION SCAN_TIMEOUT Samples.world))).
Proof.
  destruct (C2_terminal_publication
              (Scanner.capture_and_process_image Samples.lib Scanner.module_globals)
              (OcrProcessor.ocr_image Samples.lib)
              (initial_globals, Samples.world))
    as (c & m1 & Htry & _ & _ & _ & Hrun).
  rewrite Hrun. vm_compute in Htry. injection Htry as <- <-. reflexivity.
Defined.

(** C4, as amended.  When the capture returns a message (not empty, as
    the messages of scanner.py are), the result stored has an empty text,
    [success] false and the error ["Capture failed: "] followed by the
    message; the flag is cleared, the world is the one the capture left, and
    the run is the same whatever the recognition function is: it is not
    called. *)
Theorem C4_capture_failure_path :
  forall (capture : Z -> Z * Z -> Z -> F World (option string * option string))
         (ocr ocr' : option string -> string -> string
                     -> F World (option string * option string))
         (g : Globals) (w : World) (p : option string) (e : string) (w1 : World),
    capture CAMERA_INDEX CAMERA_RESOLUTION SCAN_TIMEOUT w = (Val (p, Some e), w1) ->
    e <> EmptyString ->
    perform_scan capture ocr (g, w)
    = (Val tt,
       ({| last_scan_result :=
             scan_result "" (clock w1) false (VStr ("Capture failed: " +:+ e));
           scan_in_progress := false |}, w1))
    /\ perform_scan capture ocr' (g, w) = perform_scan capture ocr (g, w).
Proof.
  intros capture ocr ocr' g w p e w1 Hcap He.
  rewrite !perform_scan_eq, !perform_scan_try_eq, Hcap.
  destruct e as [|c e]; [congruence|]. split; reflexivity.
Qed.

(** The theorem with no camera plugged in. *)
Lemma C4_capture_failure_path_witness :
  perform_scan (Scanner.capture_and_process_image Samples.lib Scanner.module_globals)
    (OcrProcessor.ocr_image Samples.lib) (initial_globals, Samples.world_no_camera)
  = (Val tt,
     ({| last_scan_result :=
           scan_result "" 7 false (VStr "Capture failed: Could not open camera 0");
         scan_in_progress := false |}, Samples.world_no_camera)).
Proof.
  refine (proj1 (C4_capture_failure_path
                   (Scanner.capture_and_process_image Samples.lib Scanner.module_globals)
                   (OcrProcessor.ocr_image Samples.lib)
                   (OcrProcessor.ocr_image Samples.lib)
                   initial_globals Samples.world_no_camera
                   None "Could not open camera 0" Samples.world_no_camera _ _)).
  - vm_compute. reflexivity.
  - discriminate.
Defined.

(** C4 as the specification states it fails: with no camera plugged in, the
    capture returns the message ["Could not open camera 0"], and the error
    stored starts with ["Capture failed: "], not with ["capture failed: "]. *)
Lemma C4_counterexample :
  let capture :=
    Scanner.capture_and_process_image Samples.lib Scanner.module_globals in
  fst (capture CAMERA_INDEX CAMERA_RESOLUTION SCAN_TIMEOUT Samples.world_no_camera)
  = Val (None, Some "Could not open camera 0")
  /\ last_scan_result
       (fst (snd (perform_scan capture (OcrProcessor.ocr_image Samples.lib)
                    (initial_globals, Samples.world_no_camera)))) !! "error"
     <> Some (VStr ("capture failed: " +:+ "Could not open camera 0")).
Proof.
  split.
  - vm_compute. reflexivity.
  - vm_compute. discriminate.
Qed.

(** C5, as amended.  When the capture returns no error and the recognition
    returns a message (not empty, as the messages of ocr_processor.py are),
    the result stored has an empty text, [success] false and the error
    ["OCR failed: "] followed by the message; the flag is cleared. *)
Theorem C5_recognition_failure_path :
  forall (capture : Z -> Z * Z -> Z -> F World (option string * option string))
         (ocr : option string -> string -> string
                -> F World (option string * option string))
         (g : Globals) (w : World) (p capture_error : option string) (w1 : World)
         (text : option string) (e : string) (w2 : World),
    capture CAMERA_INDEX CAMERA_RESOLUTION SCAN_TIMEOUT w
    = (Val (p, capture_error), w1) ->
    truthy capture_error = false ->
    ocr p OCR_LANGUAGE OCR_CONFIG w1 = (Val (text, Some e), w2) ->
    e <> EmptyString ->
    perform_scan capture ocr (g, w)
    = (Val tt,
       ({| last_scan_result :=
             scan_result "" (clock w2) false (VStr ("OCR failed: " +:+ e));
           scan_in_progress := false |}, after_cleanup p w2)).
Proof.
  intros capture ocr g w p capture_error w1 text e w2 Hcap Hok Hocr He.
  rewrite perform_scan_eq, perform_scan_try_eq, Hcap, Hok, Hocr.
  destruct e as [|c e]; [congruence|]. reflexivity.
Qed.

(** The theorem at a capture that succeeds and an engine that fails on the
    image. *)
Lemma C5_recognition_failure_path_witness :
  fst (snd (perform_scan Samples.capture_ok
              (OcrProcessor.ocr_image Samples.lib_engine_fails)
              (initial_globals, Samples.world)))
  = {| last_scan_result :=
         scan_result "" 7 false
           (VStr "OCR failed: Image processing error: (1, 'Error opening data file')");
       scan_in_progress := false |}.
Proof.
  refine (f_equal (fun r => fst (snd r))
            (C5_recognition_failure_path Samples.capture_ok
               (OcrProcessor.ocr_image Samples.lib_engine_fails)
               initial_globals Samples.world
               (Some Samples.image_path) None
               (snd (Samples.capture_ok CAMERA_INDEX CAMERA_RESOLUTION
                       SCAN_TIMEOUT Samples.world))
               None "Image processing error: (1, 'Error opening data file')"
               (snd (Samples.capture_ok CAMERA_INDEX CAMERA_RESOLUTION
                       SCAN_TIMEOUT Samples.world))
               _ _ _ _)).
  - vm_compute. reflexivity.
  - reflexivity.
  - vm_compute. reflexivity.
  - discriminate.
Defined.

(** C5 as the specification states it fails: at a capture that succeeds and
    an engine that fails on the image, the recognition returns a message,
    and the error stored starts with ["OCR failed: "], not with
    ["recognition failed: "]. *)
Lemma C5_counterexample :
  let ocr := OcrProcessor.ocr_image Samples.lib_engine_fails in
  let after_capture :=
    Samples.capture_ok CAMERA_INDEX CAMERA_RESOLUTION SCAN_TIMEOUT Samples.world in
  fst after_capture = Val (Some Samples.image_path, None)
  /\ fst (ocr (Some Samples.image_path) OCR_LANGUAGE OCR_CONFIG (snd after_capture))
     = Val (None, Some "Image processing error: (1, 'Error opening data file')")
  /\ last_scan_result
       (fst (snd (perform_scan Samples.capture_ok ocr
                    (initial_globals, Samples.world)))) !! "error"
     <> Some (VStr ("recognition failed: " +:+
                    "Image processing error: (1, 'Error opening data file')")).
Proof.
  split; [|split].
  - vm_compute. reflexivity.
  - vm_compute. reflexivity.
  - vm_compute. discriminate.
Qed.

(** C6. The success path: when the capture returns a path and no error, the
    file is there, [PIL] opens it and Tesseract returns [raw], the result
    stored has [success] true, no error, and for text [raw] without the
    white space at its two ends, or ["No text detected"] when nothing is
    left; the flag is cleared. *)
Theorem C6_success_path :
  forall (lib : Libs)
         (capture : Z -> Z * Z -> Z -> F World (option string * option string))
         (g : Globals) (w : World) (p : string) (w1 : World)
         (content : ndarray) (img0 img : PILImage) (raw : string),
    capture CAMERA_INDEX CAMERA_RESOLUTION SCAN_TIMEOUT w
    = (Val (Some p, None), w1) ->
    files w1 !! p = Some content ->
    Image_open lib content = Val img0 ->
    (if negb (String.eqb (mode img0) "RGB")
     then Image_convert lib img0 "RGB" else Val img0) = Val img ->
    image_to_string lib img OCR_LANGUAGE OCR_CONFIG = Val raw ->
    perform_scan capture (OcrProcessor.ocr_image lib) (g, w)
    = (Val tt,
       ({| last_scan_result :=
             scan_result
               (if decide (strip raw = EmptyString)
                then "No text detected" else strip raw)
               (clock w1) true VNone;
           scan_in_progress := false |}, after_cleanup (Some p) w1))
    /\ (exists pre suf,
          raw = pre +:+ strip raw +:+ suf
          /\ all_space pre = true /\ all_space suf = true)
    /\ trimmed (strip raw).
Proof.
  intros lib capture g w p w1 content img0 img raw Hcap Hfile Hopen Hconv Hread.
  split; [|apply OcrFacts.strip_spec].
  rewrite perform_scan_eq, perform_scan_try_eq, Hcap.
  cbn [truthy].
  rewrite (OcrFacts.ocr_image_reads lib p OCR_LANGUAGE OCR_CONFIG w1
             content img0 img raw Hfile Hopen Hconv Hread).
  cbn [truthy fst snd publish last_scan_result].
  destruct (strip raw) as [|c rest]; reflexivity.
Qed.

(** The theorem at a capture that succeeds and an engine that reads
    ["  Hello  "]. *)
Lemma C6_success_path_witness :
  fst (snd (perform_scan Samples.capture_ok (OcrProcessor.ocr_image Samples.lib)
              (initial_globals, Samples.world)))
  = {| last_scan_result := scan_result "Hello" 7 true VNone;
       scan_in_progress := false |}.
Proof.
  refine (f_equal (fun r => fst (snd r))
            (proj1 (C6_success_path Samples.lib Samples.capture_ok
               initial_globals Samples.world Samples.image_path
               (snd (Samples.capture_ok CAMERA_INDEX CAMERA_RESOLUTION
                       SCAN_TIMEOUT Samples.world))
               (NdArray [1%nat; 2%nat] [0; 255])
               (PIL "L" (NdArray [1%nat; 2%nat] [0; 255]))
               (PIL "RGB" (NdArray [1%nat; 2%nat] [0; 255]))
               "  Hello  " _ _ _ _ _))).
  - vm_compute. reflexivity.
  - vm_compute. reflexivity.
  - reflexivity.
  - reflexivity.
  - reflexivity.
Defined.

(** With no Tesseract binary, at a capture that succeeds: the error stored
    is the one of an image processing error, with the text of the
    exception. *)
Example engine_missing_published :
  last_scan_result
    (fst (snd (perform_scan Samples.capture_ok
                 (OcrProcessor.ocr_image Samples.lib_no_engine)
                 (initial_globals, Samples.world)))) !! "error"
  = Some (VStr ("OCR failed: Image processing error: " +:+
                "tesseract is not installed or it's not in your PATH. See README file for more information.")).
Proof. vm_compute. reflexivity. Qed.

(** An empty reading gives the placeholder. *)
Example placeholder_for_blank_text :
  str_or (Some (strip "  ")) "No text detected" = "No text detected".
Proof. reflexivity. Qed.

(** C9, as amended.  For the pipeline of the three modules, whatever the
    libraries, the globals of scanner.py and the world: a file that does not
    exist before the invocation and that [os.remove] does not refuse to
    remove does not exist after it, on any path; and the result stored is
    the same whatever the set of files that cannot be removed is when the
    cleanup runs: a failing cleanup changes nothing in it. *)
Theorem C9_temporary_image_cleanup :
  forall (lib : Libs) (G : list string) (g : Globals) (w : World),
    (forall q,
       files w !! q = None -> q ∉ undeletable w ->
       files (snd (snd (perform_scan (Scanner.capture_and_process_image lib G)
                          (OcrProcessor.ocr_image lib) (g, w)))) !! q = None)
    /\ (forall U,
          last_scan_result
            (fst (snd (perform_scan
                         (then_undeletable U (Scanner.capture_and_process_image lib G))
                         (OcrProcessor.ocr_image lib) (g, w))))
          = last_scan_result
              (fst (snd (perform_scan (Scanner.capture_and_process_image lib G)
                           (OcrProcessor.ocr_image lib) (g, w))))).
Proof.
  intros lib G g w.
  destruct (ScannerFacts.capture_returns lib G CAMERA_INDEX CAMERA_RESOLUTION
              SCAN_TIMEOUT w) as (r & w1 & Hrun & Hundel & Hclock & Hfiles).
  split.
  - intros q Hq Hrem.
    rewrite perform_scan_eq, perform_scan_try_eq, Hrun.
    destruct Hfiles as [(p & img & -> & Hf & _) | (e & -> & He & Hf)].
    + cbn [truthy]. rewrite OcrFacts.ocr_image_eq.
      cbn [fst snd].
      destruct (ocr_result lib (files w1) (Some p) OCR_LANGUAGE OCR_CONFIG)
        as [text ocr_error].
      cbn [fst snd].
      destruct (decide (p = q)) as [->|Hne].
      * apply after_cleanup_removed. rewrite Hundel. exact Hrem.
      * apply after_cleanup_other. rewrite Hf.
        rewrite lookup_insert_ne by exact Hne. exact Hq.
    + destruct e as [|c e]; [congruence|]. cbn [truthy fst snd].
      rewrite Hf. exact Hq.
  - intros U.
    rewrite !perform_scan_eq, !perform_scan_try_eq.
    unfold then_undeletable. rewrite Hrun.
    destruct r as [p capture_error].
    destruct (truthy capture_error); [reflexivity|].
    rewrite !OcrFacts.ocr_image_eq.
    cbn [files set_undeletable].
    destruct (ocr_result lib (files w1) p OCR_LANGUAGE OCR_CONFIG)
      as [text ocr_error].
    destruct (truthy ocr_error); reflexivity.
Qed.

(** The theorem at a capture that succeeds: the temporary image is gone
    after the scan, and the result is the same when it cannot be removed. *)
Lemma C9_temporary_image_cleanup_witness :
  let capture :=
    Scanner.capture_and_process_image Samples.lib Samples.globals_with_time in
  let ocr := OcrProcessor.ocr_image Samples.lib in
  files (snd (snd (perform_scan capture ocr (initial_globals, Samples.world))))
    !! Samples.image_path = None
  /\ last_scan_result
       (fst (snd (perform_scan (then_undeletable {[ Samples.image_path ]} capture)
                    ocr (initial_globals, Samples.world))))
     = last_scan_result
         (fst (snd (perform_scan capture ocr (initial_globals, Samples.world)))).
Proof.
  destruct (C9_temporary_image_cleanup Samples.lib Samples.globals_with_time
              initial_globals Samples.world) as [Hgone Hsame].
  split.
  - apply Hgone.
    + reflexivity.
    + vm_compute. set_solver.
  - apply Hsame.
Defined.

(** C9 as the specification states it fails: at a capture that succeeds,
    when [os.remove] refuses to remove the temporary image, the scan
    completes with a success stored and the image, which did not exist
    before, still exists. *)
Lemma C9_counterexample :
  let after :=
    snd (perform_scan Samples.capture_ok (OcrProcessor.ocr_image Samples.lib)
           (initial_globals, Samples.world_locked)) in
  files Samples.world_locked !! Samples.image_path = None
  /\ last_scan_result (fst after) !! "success" = Some (VBool true)
  /\ files (snd after) !! Samples.image_path
     = Some (NdArray [1%nat; 2%nat] [0; 255]).
Proof.
  split; [|split]; vm_compute; reflexivity.
Qed.

End PipelineFacts.

(** ** app.py: the POST /scan handler and its threads *)

Module ServerFacts.
Import Py Env App Logic Server.

Lemma count_app {A} (p : A -> bool) (l1 l2 : list A) :
  count p (l1 ++ l2) = (count p l1 + count p l2)%nat.
Proof. induction l1 as [|x l1 IH]; simpl; [reflexivity|]. rewrite IH. lia. Qed.

(** Replacing one element moves the count by the weights of the two. *)
Lemma count_insert {A} (p : A -> bool) (l : list A) (i : nat) (a b : A) :
  l !! i = Some a ->
  (count p (<[i := b]> l) + (if p a then 1 else 0)
   = count p l + (if p b then 1 else 0))%nat.
Proof.
  revert i. induction l as [|x l IH]; intros [|i] Hi; simpl in *;
    try discriminate.
  - injection Hi as ->. lia.
  - specialize (IH i Hi). lia.
Qed.

Lemma lookup_set {A} (l : list A) (i j : nat) (a b c : A) :
  l !! i = Some a ->
  <[i := b]> l !! j = Some c ->
  (j = i /\ c = b) \/ (j <> i /\ l !! j = Some c).
Proof.
  intros Hi Hj. destruct (decide (i = j)) as [<-|Hne].
  - rewrite list_lookup_insert_eq in Hj by (eapply lookup_lt_Some; eauto).
    injection Hj as <-. auto.
  - rewrite list_lookup_insert_ne in Hj by exact Hne. auto.
Qed.

Lemma lookup_set_same {A} (l : list A) (i : nat) (a b : A) :
  l !! i = Some a -> <[i := b]> l !! i = Some b.
Proof. intros Hi. apply list_lookup_insert_eq. eapply lookup_lt_Some; eauto. Qed.

Lemma initial_invariant (w : World) : invariant (initial w).
Proof.
  unfold invariant, initial, flag, pipelines_in_progress; simpl.
  repeat split; try discriminate; intros; discriminate.
Qed.

Lemma request_invariant (σ : System) :
  invariant σ -> invariant (add_handler AtWith σ).
Proof.
  intros (Hcount & Hin & Hlock & Hset & Hlen & Hresp).
  unfold invariant, add_handler, flag, pipelines_in_progress in *; simpl in *.
  rewrite !count_app; simpl.
  assert (Hsnoc : forall i pc, (handlers σ ++ [AtWith]) !! i = Some pc ->
                    handlers σ !! i = Some pc \/ pc = AtWith).
  { intros i pc H. apply lookup_app_Some in H as [H|[_ H]]; [auto|].
    right. destruct (i - length (handlers σ))%nat as [|n]; cbn in H;
      [congruence | destruct n; discriminate]. }
  repeat split.
  - lia.
  - intros i pc H Hpc. destruct (Hsnoc i pc H) as [H'| ->]; [eauto|discriminate].
  - intros i Hi. destruct (Hlock i Hi) as (pc & Hpc & Hb).
    exists pc. split; [|exact Hb]. apply lookup_app_l_Some. exact Hpc.
  - intros i H. destruct (Hsnoc i _ H) as [H'|?]; [eauto|discriminate].
  - lia.
  - intros i r H. destruct (Hsnoc i _ H) as [H'|?]; [eauto|discriminate].
Qed.

Section Collaborators.
Variable capture_and_process_image
  : Z -> Z * Z -> Z -> F World (option string * option string).
Variable ocr_image
  : option string -> string -> string -> F World (option string * option string).

Local Abbreviation step_handler := (Server.step_handler).
Local Abbreviation step_pipeline :=
  (Server.step_pipeline capture_and_process_image ocr_image).
Local Abbreviation step := (Server.step capture_and_process_image ocr_image).
Local Abbreviation run := (Server.run capture_and_process_image ocr_image).

(** The lock and the handlers in the [with] block, when handler [i]
    moves from [old] to [new] and the lock from [scan_lock σ] to [l]:
    the lock is kept, or given up by a handler that leaves the block, or
    taken by a handler that enters it. *)
Lemma lock_moves (σ : System) (i : nat) (old new : handler_pc) (l : option nat) :
  (forall j pc, handlers σ !! j = Some pc -> in_with_block pc = true ->
                scan_lock σ = Some j) ->
  (forall j, scan_lock σ = Some j ->
             exists pc, handlers σ !! j = Some pc /\ in_with_block pc = true) ->
  handlers σ !! i = Some old ->
  (l = scan_lock σ /\ in_with_block old = true /\ in_with_block new = true)
  \/ (l = scan_lock σ /\ in_with_block old = false /\ in_with_block new = false)
  \/ (l = None /\ in_with_block old = true /\ in_with_block new = false)
  \/ (l = Some i /\ scan_lock σ = None /\ in_with_block new = true) ->
  (forall j pc, <[i := new]> (handlers σ) !! j = Some pc ->
                in_with_block pc = true -> l = Some j)
  /\ (forall j, l = Some j ->
                exists pc, <[i := new]> (handlers σ) !! j = Some pc
                           /\ in_with_block pc = true).
Proof.
  intros Hin Hlock Hi Hcases. split.
  - intros j pc Hj Hpc.
    destruct (lookup_set _ _ _ _ _ _ Hi Hj) as [[-> ->]|[Hne Hj']].
    + destruct Hcases as [(-> & Ho & _)|[(_ & _ & Hn)|[(_ & _ & Hn)|(-> & _ & _)]]];
        try congruence.
      exact (Hin i old Hi Ho).
    + pose proof (Hin j pc Hj' Hpc) as Hl.
      destruct Hcases as [(-> & _ & _)|[(-> & _ & _)|[(_ & Ho & _)|(_ & Hnone & _)]]];
        try congruence.
      pose proof (Hin i old Hi Ho). congruence.
  - intros j Hj.
    destruct (decide (j = i)) as [->|Hne].
    + exists new. split; [eapply lookup_set_same; eauto|].
      destruct Hcases as [(_ & _ & Hn)|[(-> & Ho & _)|[(-> & _ & _)|(_ & _ & Hn)]]];
        try congruence.
      destruct (Hlock i Hj) as (pc & Hpc & Hb). congruence.
    + assert (Hl : scan_lock σ = Some j).
      { destruct Hcases as [(-> & _ & _)|[(-> & _ & _)|[(-> & _ & _)|(-> & _ & _)]]];
          congruence. }
      destruct (Hlock j Hl) as (pc & Hpc & Hb). exists pc. split; [|exact Hb].
      rewrite list_lookup_insert_ne by congruence. exact Hpc.
Qed.

Lemma step_handler_invariant (i : nat) (σ σ' : System) :
  invariant σ -> step_handler i σ = Some σ' -> invariant σ'.
Proof.
  intros (Hcount & Hin & Hlock & Hset & Hlen & Hresp) Hstep.
  unfold Server.step_handler in Hstep.
  destruct (handlers σ !! i) as [pc|] eqn:Hi; [|discriminate].
  pose proof (count_insert admitted_not_started (handlers σ) i pc) as Ca.
  pose proof (count_insert has_started_thread (handlers σ) i pc) as Cs.
  pose proof (lock_moves σ i pc) as Hmove.
  assert (Hother : forall new j pc',
            <[i := new]> (handlers σ) !! j = Some pc' ->
            pc' = new \/ handlers σ !! j = Some pc').
  { intros new j pc' Hj.
    destruct (lookup_set _ _ _ _ _ _ Hi Hj) as [[_ ->]|[_ Hj']]; auto. }
  destruct pc.
  - (* with scan_lock: *)
    destruct (scan_lock σ) eqn:Hl; [discriminate|]. injection Hstep as <-.
    specialize (Ca AtTest Hi). specialize (Cs AtTest Hi).
    destruct (Hmove AtTest (Some i) Hin Hlock Hi) as [Hin' Hlock']; [auto 10|].
    unfold invariant, flag, pipelines_in_progress in *; simpl in *.
    repeat split; [lia|exact Hin'|exact Hlock'| | lia | ].
    + intros j Hj. destruct (Hother _ _ _ Hj) as [?|Hj']; [discriminate|eauto].
    + intros j r Hj. destruct (Hother _ _ _ Hj) as [?|Hj']; [discriminate|eauto].
  - (* if scan_in_progress: *)
    injection Hstep as <-.
    set (new := if scan_in_progress (fst (machine σ)) then AtReject else AtSet).
    assert (Hnew : in_with_block new = true
                   /\ admitted_not_started new = false
                   /\ has_started_thread new = false).
    { unfold new. destruct (scan_in_progress _); auto. }
    destruct Hnew as (Hn1 & Hn2 & Hn3).
    specialize (Ca new Hi). specialize (Cs new Hi).
    destruct (Hmove new (scan_lock σ) Hin Hlock Hi) as [Hin' Hlock']; [auto 10|].
    unfold invariant, flag, pipelines_in_progress in *; simpl in *.
    rewrite Hn2 in Ca. rewrite Hn3 in Cs.
    repeat split; [lia|exact Hin'|exact Hlock'| | lia | ].
    + intros j Hj. destruct (Hother _ _ _ Hj) as [Heq|Hj']; [|eauto].
      unfold new in Heq. destruct (scan_in_progress _); [discriminate|reflexivity].
    + intros j r Hj. destruct (Hother _ _ _ Hj) as [Heq|Hj']; [|eauto].
      unfold new in Heq. destruct (scan_in_progress _); discriminate.
  - (* return jsonify(...), 429 *)
    injection Hstep as <-.
    specialize (Ca (Responded rejected) Hi). specialize (Cs (Responded rejected) Hi).
    destruct (Hmove (Responded rejected) None Hin Hlock Hi) as [Hin' Hlock'];
      [auto 10|].
    unfold invariant, flag, pipelines_in_progress in *; simpl in *.
    repeat split; [lia|exact Hin'|exact Hlock'| | lia | ].
    + intros j Hj. destruct (Hother _ _ _ Hj) as [?|Hj']; [discriminate|eauto].
    + intros j r Hj. destruct (Hother _ _ _ Hj) as [Heq|Hj']; [|eauto].
      injection Heq as ->. auto.
  - (* scan_in_progress = True *)
    injection Hstep as <-.
    specialize (Ca AtWithExit Hi). specialize (Cs AtWithExit Hi).
    destruct (Hmove AtWithExit (scan_lock σ) Hin Hlock Hi) as [Hin' Hlock'];
      [auto 10|].
    pose proof (Hset i Hi) as Hclear.
    unfold invariant, flag, pipelines_in_progress in *; simpl in *.
    rewrite Hclear in Hcount.
    repeat split; [lia|exact Hin'|exact Hlock'| | lia | ].
    + intros j Hj. destruct (Hother _ _ _ Hj) as [?|Hj']; [discriminate|].
      pose proof (Hin j AtSet Hj' eq_refl). pose proof (Hin i AtSet Hi eq_refl).
      assert (j = i) by congruence. subst j.
      rewrite (lookup_set_same _ _ _ AtWithExit Hi) in Hj. discriminate.
    + intros j r Hj. destruct (Hother _ _ _ Hj) as [?|Hj']; [discriminate|eauto].
  - (* leaving the with block *)
    injection Hstep as <-.
    specialize (Ca AtThreadStart Hi). specialize (Cs AtThreadStart Hi).
    destruct (Hmove AtThreadStart None Hin Hlock Hi) as [Hin' Hlock']; [auto 10|].
    unfold invariant, flag, pipelines_in_progress in *; simpl in *.
    repeat split; [lia|exact Hin'|exact Hlock'| | lia | ].
    + intros j Hj. destruct (Hother _ _ _ Hj) as [?|Hj']; [discriminate|eauto].
    + intros j r Hj. destruct (Hother _ _ _ Hj) as [?|Hj']; [discriminate|eauto].
  - (* scan_thread.start() *)
    injection Hstep as <-.
    specialize (Ca AtReturn Hi). specialize (Cs AtReturn Hi).
    destruct (Hmove AtReturn (scan_lock σ) Hin Hlock Hi) as [Hin' Hlock'];
      [auto 10|].
    unfold invariant, flag, pipelines_in_progress in *; simpl in *.
    rewrite count_app, length_app; simpl.
    repeat split; [lia|exact Hin'|exact Hlock'| | lia | ].
    + intros j Hj. destruct (Hother _ _ _ Hj) as [?|Hj']; [discriminate|eauto].
    + intros j r Hj. destruct (Hother _ _ _ Hj) as [?|Hj']; [discriminate|eauto].
  - (* return jsonify(...) *)
    injection Hstep as <-.
    specialize (Ca (Responded accepted) Hi). specialize (Cs (Responded accepted) Hi).
    destruct (Hmove (Responded accepted) (scan_lock σ) Hin Hlock Hi)
      as [Hin' Hlock']; [auto 10|].
    unfold invariant, flag, pipelines_in_progress in *; simpl in *.
    repeat split; [lia|exact Hin'|exact Hlock'| | lia | ].
    + intros j Hj. destruct (Hother _ _ _ Hj) as [?|Hj']; [discriminate|eauto].
    + intros j r Hj. destruct (Hother _ _ _ Hj) as [Heq|Hj']; [|eauto].
      injection Heq as ->. auto.
  - discriminate.
Qed.

(** The [try] part of the pipeline leaves the flag as it is. *)
Lemma try_keeps_flag (m : Machine) :
  scan_in_progress
    (fst (snd (perform_scan_try capture_and_process_image ocr_image m)))
  = scan_in_progress (fst m).
Proof.
  destruct m as [g w]. rewrite PipelineFacts.perform_scan_try_eq.
  destruct (capture_and_process_image _ _ _ w) as [[[p ce]|e] w1];
    [destruct (truthy ce);
     [|destruct (ocr_image _ _ _ _) as [[[t oe]|e] w2]]|]; reflexivity.
Qed.

(** The [finally] part clears it. *)
Lemma finally_clears_flag (c : completion unit unit) (m : Machine) :
  scan_in_progress (fst (snd (def tt (finally_ c perform_scan_finally) m)))
  = false.
Proof. destruct c; reflexivity. Qed.

Lemma step_pipeline_invariant (j : nat) (σ σ' : System) :
  invariant σ -> step_pipeline j σ = Some σ' -> invariant σ'.
Proof.
  intros (Hcount & Hin & Hlock & Hset & Hlen & Hresp) Hstep.
  unfold Server.step_pipeline in Hstep.
  destruct (pipelines σ !! j) as [pc|] eqn:Hj; [|discriminate].
  pose proof (count_insert executing (pipelines σ) j pc) as Ce.
  destruct pc.
  - (* the try part *)
    pose proof (try_keeps_flag (machine σ)) as Hflag.
    destruct (perform_scan_try _ _ (machine σ)) as [c m]. injection Hstep as <-.
    specialize (Ce (InFinally c) Hj).
    unfold invariant, flag, pipelines_in_progress in *; simpl in *.
    rewrite length_insert, Hflag.
    repeat split; auto; lia.
  - (* the finally part *)
    pose proof (finally_clears_flag c (machine σ)) as Hflag.
    destruct (def tt (finally_ c perform_scan_finally) (machine σ)) as [o m].
    injection Hstep as <-.
    specialize (Ce (Ended o) Hj).
    unfold invariant, flag, pipelines_in_progress in *; simpl in *.
    rewrite length_insert, Hflag.
    destruct (scan_in_progress (fst (machine σ)));
      repeat split; auto; lia.
  - discriminate.
Qed.

Lemma step_invariant (ev : event) (σ σ' : System) :
  invariant σ -> step ev σ = Some σ' -> invariant σ'.
Proof.
  intros Hinv Hstep. destruct ev as [|i|j]; simpl in Hstep.
  - injection Hstep as <-. apply request_invariant. exact Hinv.
  - eapply step_handler_invariant; eauto.
  - eapply step_pipeline_invariant; eauto.
Qed.

Lemma run_invariant (evs : list event) (σ σ' : System) :
  invariant σ -> run evs σ = Some σ' -> invariant σ'.
Proof.
  revert σ. induction evs as [|ev evs IH]; intros σ Hinv Hrun; simpl in Hrun.
  - injection Hrun as <-. exact Hinv.
  - destruct (step ev σ) as [σ1|] eqn:Hstep; [|discriminate].
    eapply IH; [|exact Hrun]. eapply step_invariant; eauto.
Qed.

Lemma reachable_invariant (w : World) (σ : System) :
  reachable capture_and_process_image ocr_image w σ -> invariant σ.
Proof.
  intros [evs Hrun]. eapply run_invariant; [apply initial_invariant|exact Hrun].
Qed.
End Collaborators.

(** C1. Single-flight admission.  In every state the server reaches,
    whatever the schedule of requests, handler statements and pipeline
    parts:
    - at most one pipeline is in progress, and then the flag is set;
    - as many threads were started as there are handlers that went on to
      accept, and every response is the rejection (429, "Scan already in
      progress") or the acceptance;
    - a handler at the test holds the lock, and goes to the rejection when
      the flag is set and to the assignment when it is clear;
    - a handler at the rejection responds 429 and gives the lock up, with
      the threads and the globals untouched;
    - a handler at the assignment holds the lock and finds the flag clear
      and no pipeline in progress, and sets the flag;
    - a handler that starts its thread has given the lock up before, and
      the thread it starts is then the only pipeline in progress. *)
Theorem C1_single_flight_admission :
  forall (capture : Z -> Z * Z -> Z -> F World (option string * option string))
         (ocr : option string -> string -> string
                -> F World (option string * option string))
         (w : World) (σ : System),
    reachable capture ocr w σ ->
    (pipelines_in_progress σ <= 1)%nat
    /\ (pipelines_in_progress σ = 1%nat -> flag σ = true)
    /\ length (pipelines σ) = count has_started_thread (handlers σ)
    /\ (forall i r, handlers σ !! i = Some (Responded r) ->
          r = Response {[ "success" := VBool false;
                          "error" := VStr "Scan already in progress" ]} 429
          \/ r = Response {[ "success" := VBool true;
                             "message" := VStr "Scan started successfully" ]} 200)
    /\ (forall i, handlers σ !! i = Some AtTest ->
          scan_lock σ = Some i
          /\ step capture ocr (Handler i) σ
             = Some (set_handler i (if flag σ then AtReject else AtSet) σ))
    /\ (forall i, handlers σ !! i = Some AtReject ->
          step capture ocr (Handler i) σ
          = Some (set_handler i (Responded rejected) (set_scan_lock None σ)))
    /\ (forall i, handlers σ !! i = Some AtSet ->
          scan_lock σ = Some i /\ flag σ = false
          /\ pipelines_in_progress σ = 0%nat
          /\ exists σ', step capture ocr (Handler i) σ = Some σ'
                        /\ flag σ' = true /\ scan_lock σ' = Some i
                        /\ pipelines σ' = pipelines σ)
    /\ (forall i, handlers σ !! i = Some AtThreadStart ->
          scan_lock σ <> Some i /\ flag σ = true
          /\ pipelines_in_progress σ = 0%nat
          /\ exists σ', step capture ocr (Handler i) σ = Some σ'
                        /\ pipelines σ' = pipelines σ ++ [InTry]
                        /\ pipelines_in_progress σ' = 1%nat).
Proof.
  intros capture ocr w σ Hreach.
  destruct (reachable_invariant capture ocr w σ Hreach)
    as (Hcount & Hin & Hlock & Hset & Hlen & Hresp).
  assert (Hle : forall (l : list handler_pc) i pc,
            l !! i = Some pc -> admitted_not_started pc = true ->
            (1 <= count admitted_not_started l)%nat).
  { induction l as [|x l IH]; intros [|i] pc Hl Hpc; simpl in *;
      try discriminate.
    - injection Hl as ->. rewrite Hpc. lia.
    - specialize (IH i pc Hl Hpc). lia. }
  refine (conj _ (conj _ (conj Hlen (conj Hresp (conj _ (conj _ (conj _ _))))))).
  - destruct (flag σ); lia.
  - intros H1. destruct (flag σ); [reflexivity|lia].
  - intros i H. split; [eapply Hin; eauto|].
    simpl. unfold Server.step_handler. rewrite H. reflexivity.
  - intros i H. simpl. unfold Server.step_handler. rewrite H. reflexivity.
  - intros i H. split; [eapply Hin; eauto|]. split; [eauto|].
    split; [rewrite (Hset i H) in Hcount; lia|].
    simpl. unfold Server.step_handler. rewrite H.
    eexists. split; [reflexivity|]. simpl.
    split; [reflexivity|]. split; [eapply Hin; eauto | reflexivity].
  - intros i H. pose proof (Hle _ _ _ H eq_refl) as Hone.
    split.
    { intros Hl. destruct (Hlock i Hl) as (pc & Hpc & Hb).
      rewrite H in Hpc. injection Hpc as <-. discriminate. }
    split; [destruct (flag σ); [reflexivity|lia]|].
    split; [destruct (flag σ); lia|].
    simpl. unfold Server.step_handler. rewrite H.
    eexists. split; [reflexivity|]. simpl. split; [reflexivity|].
    unfold pipelines_in_progress in *. simpl. rewrite count_app. simpl.
    destruct (flag σ); lia.
Qed.

(** The theorem after the sample schedule: two requests, the second 
    handled while the first holds the flag; the first has started its
    thread, the second is rejected, one pipeline is in progress. *)
Lemma C1_single_flight_admission_witness :
  exists σ,
    run (Scanner.capture_and_process_image Samples.lib Scanner.module_globals)
      (OcrProcessor.ocr_image Samples.lib) Samples.schedule
      (initial Samples.world) = Some σ
    /\ handlers σ = [AtReturn; Responded rejected]
    /\ (pipelines_in_progress σ <= 1)%nat
    /\ length (pipelines σ) = 1%nat.
Proof.
  destruct (run (Scanner.capture_and_process_image Samples.lib Scanner.module_globals)
              (OcrProcessor.ocr_image Samples.lib) Samples.schedule
              (initial Samples.world)) as [σ|] eqn:Hrun;
    [|vm_compute in Hrun; discriminate Hrun].
  exists σ. split; [reflexivity|].
  destruct (C1_single_flight_admission _ _ Samples.world σ
              (ex_intro _ Samples.schedule Hrun))
    as (Hle & _ & Hlen & _).
  assert (Hh : handlers σ = [AtReturn; Responded rejected]).
  { vm_compute in Hrun. injection Hrun as <-. reflexivity. }
  split; [exact Hh|]. split; [exact Hle|].
  rewrite Hlen, Hh. reflexivity.
Defined.

End ServerFacts.

(** ** More on ocr_processor.py *)

Module OcrMore.
Import Py Env Logic Notions.

(** The function never raises and leaves the world as it is; it returns a
    trimmed text and no error, or no text and a message that is not
    empty. *)
Theorem ocr_image_text_or_message :
  forall (lib : Libs) (p : option string) (lang config : string) (w : World),
    exists r,
      OcrProcessor.ocr_image lib p lang config w = (Val r, w)
      /\ ((exists text, r = (Some text, None) /\ trimmed text)
          \/ (exists e, r = (None, Some e) /\ e <> EmptyString)).
Proof.
  intros lib p lang config w. rewrite OcrFacts.ocr_image_eq.
  eexists; split; [reflexivity|]. unfold ocr_result.
  destruct p as [q|]; [|right; eexists; split; [reflexivity|discriminate]].
  destruct (files w !! q) as [content|];
    [|right; eexists; split; [reflexivity|discriminate]].
  match goal with |- context [match ?o with Val _ => _ | Exc _ => _ end] =>
    destruct o as [raw|e] end.
  - left. eexists; split; [reflexivity|]. apply OcrFacts.strip_spec.
  - right. eexists; split; [reflexivity|discriminate].
Qed.

(** A path at which there is no file gives the message "Image file not
    found", whatever the libraries are: the engine is not asked. *)
Theorem ocr_image_missing_file :
  forall (lib : Libs) (p lang config : string) (w : World),
    files w !! p = None ->
    OcrProcessor.ocr_image lib (Some p) lang config w
    = (Val (None, Some "Image file not found"), w).
Proof.
  intros lib p lang config w Hp. rewrite OcrFacts.ocr_image_eq.
  unfold ocr_result. rewrite Hp. reflexivity.
Qed.

Lemma ocr_image_missing_file_witness :
  OcrProcessor.ocr_image Samples.lib_no_engine (Some "/nonexistent/test.jpg")
    "eng" "" Samples.world
  = (Val (None, Some "Image file not found"), Samples.world).
Proof.
  apply (ocr_image_missing_file Samples.lib_no_engine "/nonexistent/test.jpg"
           "eng" "" Samples.world).
  reflexivity.
Defined.

(** The message of the clause written for a missing engine is never
    returned, not even when the engine raises [TesseractNotFoundError]. *)
Theorem ocr_image_never_reports_not_installed :
  forall (lib : Libs) (p : option string) (lang config : string) (w : World)
         (text : option string),
    fst (OcrProcessor.ocr_image lib p lang config w)
    <> Val (text, Some not_installed_message).
Proof.
  intros lib p lang config w text. rewrite OcrFacts.ocr_image_eq.
  cbn [fst]. unfold ocr_result, not_installed_message.
  destruct p as [q|]; [|discriminate].
  destruct (files w !! q) as [content|]; [|discriminate].
  match goal with |- context [match ?o with Val _ => _ | Exc _ => _ end] =>
    destruct o as [raw|e] end; discriminate.
Qed.

(** An empty [config] is the same as ["--psm 6"]. *)
Theorem ocr_image_default_config :
  forall (lib : Libs) (p : option string) (lang : string) (w : World),
    OcrProcessor.ocr_image lib p lang "" w
    = OcrProcessor.ocr_image lib p lang "--psm 6" w.
Proof.
  intros lib p lang w. rewrite !OcrFacts.ocr_image_eq. reflexivity.
Qed.

End OcrMore.

(** ** More on app.py: the pipeline and the read-only routes *)

Module AppMore.
Import Py Env App Logic Notions.

Lemma str_or_nonempty (a : option string) (b : string) :
  b <> EmptyString -> str_or a b <> EmptyString.
Proof.
  intros Hb. unfold str_or. destruct a as [[|c s]|]; try exact Hb. discriminate.
Qed.

Lemma prefix_append (a b : string) : String.prefix a (a +:+ b) = true.
Proof.
  induction a as [|c a IH]; simpl; [destruct b; reflexivity|].
  destruct (Ascii.ascii_dec c c) as [_|Hne]; [exact IH|congruence].
Qed.

(** The [try] part of [perform_scan] lets no exception out and stores a
    result of one of the two forms. *)
Lemma perform_scan_try_sound
    (capture : Z -> Z * Z -> Z -> F World (option string * option string))
    (ocr : option string -> string -> string
           -> F World (option string * option string))
    (m : Machine) :
  (forall e, fst (perform_scan_try capture ocr m) <> Raise e)
  /\ well_formed_result
       (last_scan_result (fst (snd (perform_scan_try capture ocr m)))).
Proof.
  destruct m as [g w].
  rewrite PipelineFacts.perform_scan_try_eq.
  unfold well_formed_result.
  destruct (capture CAMERA_INDEX CAMERA_RESOLUTION SCAN_TIMEOUT w)
    as [[[image_path capture_error]|e] w1].
  - destruct (truthy capture_error).
    + split; [discriminate|].
      right. do 2 eexists. split; [reflexivity|]. left. apply prefix_append.
    + destruct (ocr image_path OCR_LANGUAGE OCR_CONFIG w1)
        as [[[text ocr_error]|e] w2].
      * split; [discriminate|].
        cbn [fst snd publish last_scan_result]. destruct (truthy ocr_error).
        -- right. do 2 eexists. split; [reflexivity|]. right. left.
           apply prefix_append.
        -- left. do 2 eexists. split; [reflexivity|].
           apply str_or_nonempty. discriminate.
      * split; [discriminate|].
        right. do 2 eexists. split; [reflexivity|]. right. right.
        apply prefix_append.
  - split; [discriminate|].
    right. do 2 eexists. split; [reflexivity|]. right. right.
    apply prefix_append.
Qed.

(** Whatever the capture and the recognition do, the result that
    [perform_scan] stores is a success with a text that is not empty or a
    failure with an empty text and a message with one of the three
    prefixes. *)
Theorem perform_scan_result_well_formed :
  forall (capture : Z -> Z * Z -> Z -> F World (option string * option string))
         (ocr : option string -> string -> string
                -> F World (option string * option string))
         (m : Machine),
    well_formed_result
      (last_scan_result (fst (snd (perform_scan capture ocr m)))).
Proof.
  intros capture ocr m. rewrite PipelineFacts.perform_scan_eq.
  apply perform_scan_try_sound.
Qed.

(** When the capture raises, the error stored is "Unexpected error: "
    followed by the text of the exception, the world is the one the capture
    left, and the recognition is not called. *)
Theorem perform_scan_capture_raises :
  forall (capture : Z -> Z * Z -> Z -> F World (option string * option string))
         (ocr ocr' : option string -> string -> string
                     -> F World (option string * option string))
         (g : Globals) (w : World) (e : exn) (w1 : World),
    capture CAMERA_INDEX CAMERA_RESOLUTION SCAN_TIMEOUT w = (Exc e, w1) ->
    perform_scan capture ocr (g, w)
    = (Val tt,
       ({| last_scan_result :=
             scan_result "" (clock w1) false
               (VStr ("Unexpected error: " +:+ exn_str e));
           scan_in_progress := false |}, w1))
    /\ perform_scan capture ocr' (g, w) = perform_scan capture ocr (g, w).
Proof.
  intros capture ocr ocr' g w e w1 Hcap.
  rewrite !PipelineFacts.perform_scan_eq, !PipelineFacts.perform_scan_try_eq, Hcap.
  split; reflexivity.
Qed.

Lemma perform_scan_capture_raises_witness :
  fst (snd (perform_scan MoreSamples.capture_raises
              (OcrProcessor.ocr_image Samples.lib)
              (initial_globals, Samples.world)))
  = {| last_scan_result :=
         scan_result "" 7 false (VStr "Unexpected error: camera driver crashed");
       scan_in_progress := false |}.
Proof.
  refine (f_equal (fun r => fst (snd r))
            (proj1 (perform_scan_capture_raises MoreSamples.capture_raises
               (OcrProcessor.ocr_image Samples.lib)
               (OcrProcessor.ocr_image Samples.lib)
               initial_globals Samples.world
               (Exn RuntimeError "camera driver crashed") Samples.world _))).
  reflexivity.
Defined.

(** When the recognition raises, the error stored is "Unexpected error: "
    followed by the text of the exception, and the cleanup block is not
    run: the world is the one the recognition left, with the temporary
    image in it. *)
Theorem perform_scan_recognition_raises :
  forall (capture : Z -> Z * Z -> Z -> F World (option string * option string))
         (ocr : option string -> string -> string
                -> F World (option string * option string))
         (g : Globals) (w : World) (p capture_error : option string)
         (w1 : World) (e : exn) (w2 : World),
    capture CAMERA_INDEX CAMERA_RESOLUTION SCAN_TIMEOUT w
    = (Val (p, capture_error), w1) ->
    truthy capture_error = false ->
    ocr p OCR_LANGUAGE OCR_CONFIG w1 = (Exc e, w2) ->
    perform_scan capture ocr (g, w)
    = (Val tt,
       ({| last_scan_result :=
             scan_result "" (clock w2) false
               (VStr ("Unexpected error: " +:+ exn_str e));
           scan_in_progress := false |}, w2)).
Proof.
  intros capture ocr g w p capture_error w1 e w2 Hcap Hok Hocr.
  rewrite PipelineFacts.perform_scan_eq, PipelineFacts.perform_scan_try_eq,
    Hcap, Hok, Hocr.
  reflexivity.
Qed.

(** At a capture that succeeds and a recognition that raises, the temporary
    image is still there after the scan. *)
Lemma perform_scan_recognition_raises_witness :
  let after :=
    snd (perform_scan Samples.capture_ok MoreSamples.ocr_raises
           (initial_globals, Samples.world)) in
  last_scan_result (fst after)
  = scan_result "" 7 false (VStr "Unexpected error: engine crashed")
  /\ files (snd after) !! Samples.image_path
     = Some (NdArray [1%nat; 2%nat] [0; 255]).
Proof.
  pose proof (perform_scan_recognition_raises Samples.capture_ok
                MoreSamples.ocr_raises initial_globals Samples.world
                (Some Samples.image_path) None
                (snd (Samples.capture_ok CAMERA_INDEX CAMERA_RESOLUTION
                        SCAN_TIMEOUT Samples.world))
                (Exn RuntimeError "engine crashed")
                (snd (Samples.capture_ok CAMERA_INDEX CAMERA_RESOLUTION
                        SCAN_TIMEOUT Samples.world))) as H.
  cbv zeta. rewrite H.
  - split; [reflexivity|]. vm_compute. reflexivity.
  - vm_compute. reflexivity.
  - reflexivity.
  - reflexivity.
Defined.

(** The cleanup removes the temporary image and nothing else: with the
    recognition of ocr_processor.py, after a capture that returned a path
    and no error, every other file is as the capture left it, and so are
    the devices, the clock and the set of files that cannot be removed. *)
Theorem perform_scan_removes_only_the_image :
  forall (lib : Libs)
         (capture : Z -> Z * Z -> Z -> F World (option string * option string))
         (g : Globals) (w : World) (p : string) (capture_error : option string)
         (w1 : World),
    capture CAMERA_INDEX CAMERA_RESOLUTION SCAN_TIMEOUT w
    = (Val (Some p, capture_error), w1) ->
    truthy capture_error = false ->
    let w' := snd (snd (perform_scan capture (OcrProcessor.ocr_image lib) (g, w))) in
    (forall q, q <> p -> files w' !! q = files w1 !! q)
    /\ cameras w' = cameras w1 /\ clock w' = clock w1
    /\ undeletable w' = undeletable w1.
Proof.
  intros lib capture g w p capture_error w1 Hcap Hok. cbv zeta.
  rewrite PipelineFacts.perform_scan_eq, PipelineFacts.perform_scan_try_eq,
    Hcap, Hok, OcrFacts.ocr_image_eq.
  cbn [fst snd].
  destruct (ocr_result lib (files w1) (Some p) OCR_LANGUAGE OCR_CONFIG)
    as [text ocr_error].
  cbn [fst snd]. unfold after_cleanup.
  destruct (_ && _); cbn [files cameras clock undeletable set_files]; auto.
  split; [|auto]. intros q Hq. apply lookup_delete_ne. congruence.
Qed.

Lemma perform_scan_removes_only_the_image_witness :
  let w' :=
    snd (snd (perform_scan Samples.capture_ok (OcrProcessor.ocr_image Samples.lib)
                (initial_globals, MoreSamples.world_with_other_file))) in
  files w' !! "/tmp/notes.txt" = Some (NdArray [] [])
  /\ files w' !! Samples.image_path = None.
Proof.
  destruct (perform_scan_removes_only_the_image Samples.lib Samples.capture_ok
              initial_globals MoreSamples.world_with_other_file
              Samples.image_path None
              (snd (Samples.capture_ok CAMERA_INDEX CAMERA_RESOLUTION
                      SCAN_TIMEOUT MoreSamples.world_with_other_file)))
    as (Hother & _).
  - vm_compute. reflexivity.
  - reflexivity.
  - cbv zeta in *. split.
    + rewrite Hother by discriminate. vm_compute. reflexivity.
    + vm_compute. reflexivity.
Defined.

End AppMore.

(** ** More on scanner.py: the probe and the capture at the device *)

Module ScannerMore.
Import Py Env Logic LogicFacts Notions ScannerFacts.

Section Device.
Context {R : Type}.

Lemma wp_VideoCapture_new_closed i
    (Q : completion R VideoCapture -> World -> Prop) w :
  cannot_open w i ->
  Q (Next (Cap i false)) w ->
  wp (VideoCapture_new i) Q w.
Proof.
  unfold cannot_open, wp, VideoCapture_new. intros Hc HQ.
  destruct (cameras w !! i) as [cam|]; [rewrite Hc|]; exact HQ.
Qed.

Lemma wp_cap_release_closed cap (Q : completion R unit -> World -> Prop) w :
  cap_opened cap = false ->
  Q (Next tt) w ->
  wp (cap_release cap) Q w.
Proof. unfold wp, cap_release. intros -> HQ. exact HQ. Qed.

Lemma wp_cap_read_nil cap
    (Q : completion R (bool * option ndarray) -> World -> Prop) w :
  reads_at w (cap_index cap) [] ->
  Q (Next (false, None)) w ->
  wp (cap_read cap) Q w.
Proof.
  intros (cam & Hcam & _ & Hreads) HQ. unfold wp, cap_read.
  destruct (cap_opened cap); [|exact HQ]. rewrite Hcam, Hreads. exact HQ.
Qed.

(** Releasing an opened handle leaves the device released, with what it
    has left to give. *)
Lemma wp_cap_release_released cap (Q : completion R unit -> World -> Prop) w :
  cap_opened cap = true ->
  (forall w1, disk w1 = disk w -> released w1 (cap_index cap) ->
              (forall rs, reads_at w (cap_index cap) rs ->
                          reads_at w1 (cap_index cap) rs) ->
              Q (Next tt) w1) ->
  wp (cap_release cap) Q w.
Proof.
  intros Hopened H. unfold wp, cap_release. rewrite Hopened. simpl.
  apply H; [reflexivity| |].
  - unfold released, update_camera. cbn [cameras set_cameras].
    rewrite lookup_alter_eq. destruct (cameras w !! cap_index cap); simpl; auto.
  - intros rs Hat. eapply reads_at_update; [exact Hat|reflexivity|auto].
Qed.
End Device.

(** One step of symbolic execution in which the handle is followed to its
    release. *)
Ltac wp_release :=
  lazymatch goal with
  | |- wp (VideoCapture_new _) _ _ =>
      first [ eapply wp_VideoCapture_new_at; [eassumption | intros ? ? ?]
            | eapply wp_VideoCapture_new_closed; [eassumption|] ]
  | |- wp (cap_release (Cap _ true)) _ _ =>
      apply wp_cap_release_released; [reflexivity | intros ? ? ? ?]
  | |- wp (cap_release (Cap _ false)) _ _ =>
      apply wp_cap_release_closed; [reflexivity|]
  | |- wp (cap_read _) _ _ =>
      first [ eapply wp_cap_read_at; [reflexivity | eassumption | intros ? ? ?]
            | eapply wp_cap_read_nil; [eassumption|]
            | apply wp_cap_read; [intros [? ?] ? ? | intros ? ? ?] ]
  | |- wp (cap_set _ _ _) _ _ =>
      first [ eapply wp_cap_set_at; [eassumption | intros ? ? ?]
            | apply wp_cap_set; intros ? ? ]
  | |- wp (load_global _ _) _ _ =>
      let H := fresh "Hname" in
      apply wp_load_global; intros H; bound_or_not H; try contradiction
  | |- wp (when _ _) _ _ => unfold when; cbn [negb cap_opened fst snd]
  | |- match _ with Val _ => _ | Exc _ => _ end => cbv beta iota
  | |- _ => wp_step
  end.

Lemma check_camera_available_spec (G : list string) (camera_index : Z)
    (w : World) :
  fwp (Scanner.check_camera_available G camera_index)
      (fun o w1 => (exists b, o = Val b) /\ disk w1 = disk w) w.
Proof.
  unfold Scanner.check_camera_available. apply fwp_def_total.
  repeat wp_step; cbn [fst snd] in *; (split; [eauto | congruence]).
Qed.

(** The probe never raises, whatever the device does, and leaves the files
    and the clock alone. *)
Theorem check_camera_available_total :
  forall (G : list string) (camera_index : Z) (w : World),
    exists b w1,
      Scanner.check_camera_available G camera_index w = (Val b, w1)
      /\ disk w1 = disk w.
Proof.
  intros G camera_index w.
  pose proof (check_camera_available_spec G camera_index w) as H.
  unfold fwp in H.
  destruct (Scanner.check_camera_available G camera_index w) as [o w1].
  cbn [fst snd] in H. destruct H as [[b ->] Hd]. eauto.
Qed.

(** The probe at a device that is missing or does not open: the answer is
    [False] and the world is as it was. *)
Theorem check_camera_available_cannot_open :
  forall (camera_index : Z) (w : World),
    cannot_open w camera_index ->
    Scanner.check_camera_available Scanner.module_globals camera_index w
    = (Val false, w).
Proof.
  intros camera_index w Hc.
  assert (H : fwp (Scanner.check_camera_available Scanner.module_globals
                     camera_index)
                (fun o w1 => o = Val false /\ w1 = w) w).
  { unfold Scanner.check_camera_available. apply fwp_def_total.
    repeat wp_release. cbn [fst snd]. auto. }
  unfold fwp in H.
  destruct (Scanner.check_camera_available _ camera_index w) as [o w1].
  cbn [fst snd] in H. destruct H as [-> ->]. reflexivity.
Qed.

Lemma check_camera_available_cannot_open_witness :
  Scanner.check_camera_available Scanner.module_globals 0
    Samples.world_no_camera = (Val false, Samples.world_no_camera)
  /\ Scanner.check_camera_available Scanner.module_globals 0
       (MoreSamples.world_with MoreSamples.camera_busy)
     = (Val false, MoreSamples.world_with MoreSamples.camera_busy).
Proof.
  split.
  - apply (check_camera_available_cannot_open 0 Samples.world_no_camera).
    vm_compute. exact I.
  - apply (check_camera_available_cannot_open 0
             (MoreSamples.world_with MoreSamples.camera_busy)).
    vm_compute. reflexivity.
Defined.

(** The probe at a device that opens: it reads once, answers [True]
    exactly when that read gives [(True, frame)] with a frame, an exception
    of the read included, and releases the handle; the files and the clock
    are as they were and the device has given one frame. *)
Theorem check_camera_available_reads_once :
  forall (camera_index : Z) (w : World)
         (r : outcome (bool * option ndarray))
         (rest : list (outcome (bool * option ndarray))),
    reads_at w camera_index (r :: rest) ->
    exists w1,
      Scanner.check_camera_available Scanner.module_globals camera_index w
      = (Val (probe_answer r), w1)
      /\ disk w1 = disk w
      /\ reads_at w1 camera_index rest
      /\ released w1 camera_index.
Proof.
  intros camera_index w r rest Hat.
  assert (H : fwp (Scanner.check_camera_available Scanner.module_globals
                     camera_index)
                (fun o w1 => o = Val (probe_answer r) /\ disk w1 = disk w
                             /\ reads_at w1 camera_index rest
                             /\ released w1 camera_index) w).
  { unfold Scanner.check_camera_available. apply fwp_def_total.
    repeat wp_release.
    all: cbn [fst snd cap_index] in *.
    all: destruct r as [[[|] [f|]]|e]; cbn [probe_answer fst snd andb] in *;
      repeat wp_release; cbn [fst snd cap_index] in *.
    all: (split; [reflexivity|]); (split; [congruence|]); auto. }
  unfold fwp in H.
  destruct (Scanner.check_camera_available _ camera_index w) as [o w1].
  cbn [fst snd] in H. destruct H as (-> & Hd & Hr & Hrel). eauto.
Qed.

Lemma check_camera_available_reads_once_witness :
  exists w1,
    Scanner.check_camera_available Scanner.module_globals 0 Samples.world
    = (Val true, w1)
    /\ reads_at w1 0 (repeat (Val (true, Some Samples.frame)) 5)
    /\ released w1 0.
Proof.
  destruct (check_camera_available_reads_once 0 Samples.world
              (Val (true, Some Samples.frame))
              (repeat (Val (true, Some Samples.frame)) 5))
    as (w1 & Hrun & _ & Hat & Hrel).
  - exists Samples.camera. repeat split.
  - exists w1. auto.
Defined.

(** The capture never raises.  It returns a path and no error, having
    written that file and no other, or no path and a message that is not
    empty, having written nothing; the clock and the set of files that
    cannot be removed are as they were. *)
Theorem capture_total :
  forall (lib : Libs) (G : list string) (camera_index : Z) (resolution : Z * Z)
         (timeout : Z) (w : World),
    exists r w1,
      Scanner.capture_and_process_image lib G camera_index resolution timeout w
      = (Val r, w1)
      /\ undeletable w1 = undeletable w /\ clock w1 = clock w
      /\ ((exists p img, r = (Some p, None) /\ files w1 = <[p := img]> (files w))
          \/ (exists e, r = (None, Some e) /\ e <> EmptyString
                        /\ files w1 = files w)).
Proof.
  intros lib G camera_index resolution timeout w.
  destruct (capture_returns lib G camera_index resolution timeout w)
    as (r & w1 & Hrun & Hu & Hc & Hcases).
  exists r, w1. repeat split; auto.
  destruct Hcases as [(p & img & Hr & Hf & _)|Herr]; [left; eauto|right; exact Herr].
Qed.

(** The capture at a device that is missing or does not open: the message
    names the camera, and the world is as it was. *)
Theorem capture_cannot_open :
  forall (lib : Libs) (camera_index : Z) (resolution : Z * Z) (timeout : Z)
         (w : World),
    cannot_open w camera_index ->
    Scanner.capture_and_process_image lib Scanner.module_globals
      camera_index resolution timeout w
    = (Val (None, Some ("Could not open camera " +:+ pretty camera_index)), w).
Proof.
  intros lib camera_index resolution timeout w Hc.
  assert (H : fwp (Scanner.capture_and_process_image lib Scanner.module_globals
                     camera_index resolution timeout)
                (fun o w1 =>
                   o = Val (None, Some ("Could not open camera "
                                        +:+ pretty camera_index))
                   /\ w1 = w) w).
  { unfold Scanner.capture_and_process_image. apply fwp_def_total.
    repeat wp_release. cbn [fst snd]. auto. }
  unfold fwp in H.
  destruct (Scanner.capture_and_process_image _ _ camera_index _ _ w) as [o w1].
  cbn [fst snd] in H. destruct H as [-> ->]. reflexivity.
Qed.

Lemma capture_cannot_open_witness :
  Scanner.capture_and_process_image Samples.lib Scanner.module_globals
    0 (1920, 1080) 30 (MoreSamples.world_with MoreSamples.camera_busy)
  = (Val (None, Some "Could not open camera 0"),
     MoreSamples.world_with MoreSamples.camera_busy).
Proof.
  apply (capture_cannot_open Samples.lib 0 (1920, 1080) 30
           (MoreSamples.world_with MoreSamples.camera_busy)).
  vm_compute. reflexivity.
Defined.

(** The capture at a device that opens: the message is decided by the first
    read.  A read that gives [ret] false, or nothing at all, is a failure
    to capture the initial frames; a read that raises is reported with the
    text of the exception; a read that succeeds is followed by the
    [NameError] of [time.sleep].  In each case one read has been made, the
    handle is released and no file is written. *)
Theorem capture_first_read :
  forall (lib : Libs) (camera_index : Z) (resolution : Z * Z) (timeout : Z)
         (w : World) (r : outcome (bool * option ndarray))
         (rest : list (outcome (bool * option ndarray))),
    reads_at w camera_index (r :: rest) ->
    exists w1,
      Scanner.capture_and_process_image lib Scanner.module_globals
        camera_index resolution timeout w
      = (Val (None, Some (first_read_message r)), w1)
      /\ disk w1 = disk w
      /\ reads_at w1 camera_index rest
      /\ released w1 camera_index.
Proof.
  intros lib camera_index resolution timeout w r rest Hat.
  assert (H : fwp (Scanner.capture_and_process_image lib Scanner.module_globals
                     camera_index resolution timeout)
                (fun o w1 => o = Val (None, Some (first_read_message r))
                             /\ disk w1 = disk w
                             /\ reads_at w1 camera_index rest
                             /\ released w1 camera_index) w).
  { unfold Scanner.capture_and_process_image. apply fwp_def_total.
    unfold range; cbn [seq].
    repeat wp_release.
    all: cbn [fst snd cap_index] in *.
    all: destruct r as [[[|] f]|e]; cbn [first_read_message fst snd negb] in *;
      repeat wp_release; cbn [fst snd cap_index] in *.
    all: (split; [reflexivity|]); (split; [congruence|]); auto. }
  unfold fwp in H.
  destruct (Scanner.capture_and_process_image _ _ camera_index _ _ w) as [o w1].
  cbn [fst snd] in H. destruct H as (-> & Hd & Hr & Hrel). eauto.
Qed.

Lemma capture_first_read_witness :
  exists w1,
    Scanner.capture_and_process_image Samples.lib Scanner.module_globals
      0 (1920, 1080) 30 (MoreSamples.world_with MoreSamples.camera_faulty)
    = (Val (None, Some "Capture error: select() timeout"), w1)
    /\ released w1 0.
Proof.
  destruct (capture_first_read Samples.lib 0 (1920, 1080) 30
              (MoreSamples.world_with MoreSamples.camera_faulty)
              (Exc (Exn CvError "select() timeout")) [])
    as (w1 & Hrun & _ & _ & Hrel).
  - exists MoreSamples.camera_faulty. repeat split.
  - exists w1. auto.
Defined.

(** The capture at a device that opens and has nothing to give: the first
    read returns [(False, None)], which is a failure to capture the initial
    frames; the handle is released. *)
Theorem capture_no_frames :
  forall (lib : Libs) (camera_index : Z) (resolution : Z * Z) (timeout : Z)
         (w : World),
    reads_at w camera_index [] ->
    exists w1,
      Scanner.capture_and_process_image lib Scanner.module_globals
        camera_index resolution timeout w
      = (Val (None, Some "Failed to capture initial frames"), w1)
      /\ disk w1 = disk w
      /\ released w1 camera_index.
Proof.
  intros lib camera_index resolution timeout w Hat.
  assert (H : fwp (Scanner.capture_and_process_image lib Scanner.module_globals
                     camera_index resolution timeout)
                (fun o w1 => o = Val (None, Some "Failed to capture initial frames")
                             /\ disk w1 = disk w
                             /\ released w1 camera_index) w).
  { unfold Scanner.capture_and_process_image. apply fwp_def_total.
    unfold range; cbn [seq].
    repeat wp_release.
    cbn [fst snd cap_index] in *.
    split; [reflexivity|]. split; [congruence|assumption]. }
  unfold fwp in H.
  destruct (Scanner.capture_and_process_image _ _ camera_index _ _ w) as [o w1].
  cbn [fst snd] in H. destruct H as (-> & Hd & Hrel). eauto.
Qed.

Lemma capture_no_frames_witness :
  exists w1,
    Scanner.capture_and_process_image Samples.lib Scanner.module_globals
      0 (1920, 1080) 30 (MoreSamples.world_with MoreSamples.camera_dry)
    = (Val (None, Some "Failed to capture initial frames"), w1)
    /\ released w1 0.
Proof.
  destruct (capture_no_frames Samples.lib 0 (1920, 1080) 30
              (MoreSamples.world_with MoreSamples.camera_dry))
    as (w1 & Hrun & _ & Hrel).
  - exists MoreSamples.camera_dry. repeat split.
  - exists w1. auto.
Defined.

(** The capture releases the handle on every path: at a device that opens,
    whatever the libraries, the globals (with [cv2] bound) and the reads
    are, exceptions included, no handle is open on the device when the
    function returns. *)
Theorem capture_releases_the_device :
  forall (lib : Libs) (G : list string) (camera_index : Z) (resolution : Z * Z)
         (timeout : Z) (w : World)
         (rs : list (outcome (bool * option ndarray))),
    "cv2" ∈ G ->
    reads_at w camera_index rs ->
    released
      (snd (Scanner.capture_and_process_image lib G camera_index resolution
              timeout w))
      camera_index.
Proof.
  intros lib G camera_index resolution timeout w rs HG Hat.
  change (fwp (Scanner.capture_and_process_image lib G camera_index resolution
                 timeout)
              (fun _ w1 => released w1 camera_index) w).
  unfold Scanner.capture_and_process_image. apply fwp_def_total.
  unfold range; cbn [seq].
  repeat first
    [ match goal with
      | |- wp (load_global _ _) _ _ =>
          apply wp_load_global; intros ?; try contradiction
      | |- wp (cap_read _) _ _ =>
          apply wp_cap_read; [intros [? ?] ? ? | intros ? ? ?]
      | |- wp (cap_set _ _ _) _ _ => apply wp_cap_set; intros ? ?
      end
    | wp_release ].
  all: cbn [fst snd cap_index] in *; assumption.
Qed.

Lemma capture_releases_the_device_witness :
  released
    (snd (Scanner.capture_and_process_image Samples.lib Samples.globals_with_time
            0 (1920, 1080) 30 Samples.world)) 0.
Proof.
  apply (capture_releases_the_device Samples.lib Samples.globals_with_time
           0 (1920, 1080) 30 Samples.world
           (repeat (Val (true, Some Samples.frame)) 6)).
  - apply (bool_decide_eq_true_1 _). vm_compute. reflexivity.
  - exists Samples.camera. repeat split.
Defined.

End ScannerMore.

(** ** More on app.py: the read-only routes and the server *)

Module ServerMore.
Import Py Env App Logic Notions Server ServerFacts.

(** The read-only routes never raise and change neither the flag nor the
    stored result.  [/status] reports the flag as it is, and
    [camera_online] true exactly when the probe answered [True];
    [/last_result] returns the stored result; [/health] the clock. *)
Theorem read_only_routes :
  forall (probe : Z -> F World bool) (g : Globals) (w : World),
    (exists b,
       Routes.status probe (g, w)
       = (Val (Response b 200), (g, snd (probe CAMERA_INDEX w)))
       /\ b !! "scan_in_progress" = Some (VBool (scan_in_progress g))
       /\ b !! "camera_online"
          = Some (VBool (match fst (probe CAMERA_INDEX w) with
                         | Val true => true
                         | _ => false
                         end)))
    /\ Routes.get_last_result (g, w)
       = (Val (Response (last_scan_result g) 200), (g, w))
    /\ Routes.health_check (g, w)
       = (Val (Response {[ "status" := VStr "healthy";
                           "timestamp" := VFloat (clock w) ]} 200), (g, w)).
Proof.
  intros probe g w. split; [|split; reflexivity].
  unfold Routes.status, get_camera_status, def_total, try_except, bind, outer,
    invoke, gets, return_.
  cbn [fst snd].
  destruct (probe CAMERA_INDEX w) as [[[|]|e] w1]; cbn [fst snd dispatch];
    eexists; (split; [reflexivity|]); split; reflexivity.
Qed.

Section Collaborators.
Variable capture_and_process_image
  : Z -> Z * Z -> Z -> F World (option string * option string).
Variable ocr_image
  : option string -> string -> string -> F World (option string * option string).

Local Abbreviation step := (Server.step capture_and_process_image ocr_image).
Local Abbreviation run := (Server.run capture_and_process_image ocr_image).
Local Abbreviation reachable :=
  (Server.reachable capture_and_process_image ocr_image).

Lemma run_app (evs1 evs2 : list event) (σ σ1 : System) :
  run evs1 σ = Some σ1 -> run (evs1 ++ evs2) σ = run evs2 σ1.
Proof.
  revert σ. induction evs1 as [|ev evs1 IH]; intros σ H; simpl in *.
  - injection H as ->. reflexivity.
  - destruct (step ev σ) as [σ'|]; [|discriminate]. apply IH. exact H.
Qed.

Lemma count_zero {A} (p : A -> bool) (l : list A) (i : nat) (x : A) :
  count p l = 0%nat -> l !! i = Some x -> p x = false.
Proof.
  revert i. induction l as [|y l IH]; intros [|i] Hc Hi; simpl in *;
    try discriminate.
  - injection Hi as ->. destruct (p x); [discriminate|reflexivity].
  - apply (IH i); [|exact Hi]. destruct (p y); [discriminate|exact Hc].
Qed.

Lemma count_zero_intro {A} (p : A -> bool) (l : list A) :
  (forall i x, l !! i = Some x -> p x = false) -> count p l = 0%nat.
Proof.
  induction l as [|y l IH]; intros H; simpl; [reflexivity|].
  rewrite (H 0%nat y eq_refl). simpl. apply IH.
  intros i x Hi. exact (H (S i) x Hi).
Qed.

(** Mutual exclusion: in every state the server reaches, two handlers
    inside the [with scan_lock:] block are the same handler. *)
Theorem one_handler_in_the_block :
  forall (w : World) (σ : System) (i j : nat) (pc pc' : handler_pc),
    reachable w σ ->
    handlers σ !! i = Some pc -> in_with_block pc = true ->
    handlers σ !! j = Some pc' -> in_with_block pc' = true ->
    i = j.
Proof.
  intros w σ i j pc pc' Hreach Hi Hpc Hj Hpc'.
  destruct (reachable_invariant _ _ w σ Hreach) as (_ & Hin & _).
  pose proof (Hin i pc Hi Hpc). pose proof (Hin j pc' Hj Hpc'). congruence.
Qed.

(** The flag is clear exactly when the server is idle: no pipeline is in
    progress, and no handler has set the flag without having started its
    thread yet.  After a pipeline has ended, admission is open again. *)
Theorem flag_clear_iff_idle :
  forall (w : World) (σ : System),
    reachable w σ ->
    (flag σ = false
     <-> pipelines_in_progress σ = 0%nat
         /\ forall i pc, handlers σ !! i = Some pc ->
                         admitted_not_started pc = false).
Proof.
  intros w σ Hreach.
  destruct (reachable_invariant _ _ w σ Hreach) as (Hcount & _).
  split.
  - intros Hf. rewrite Hf in Hcount. split; [lia|].
    intros i pc Hi. eapply count_zero; [|exact Hi]. lia.
  - intros [Hp Hh]. rewrite Hp, (count_zero_intro _ _ Hh) in Hcount.
    destruct (flag σ); [discriminate|reflexivity].
Qed.

(** No deadlock on the lock: in every state the server reaches, the handler
    that holds the lock can run, and gives the lock up within three of its
    own statements. *)
Theorem lock_is_given_up :
  forall (w : World) (σ : System) (i : nat),
    reachable w σ ->
    scan_lock σ = Some i ->
    exists k σ',
      (k <= 3)%nat
      /\ run (handler_steps i k) σ = Some σ'
      /\ scan_lock σ' = None.
Proof.
  intros w σ i Hreach Hl.
  destruct (reachable_invariant _ _ w σ Hreach) as (_ & _ & Hlock & _).
  destruct (Hlock i Hl) as (pc & Hi & Hpc).
  assert (Hexit : forall τ, handlers τ !! i = Some AtWithExit ->
            run (handler_steps i 1) τ
            = Some (set_handler i AtThreadStart (set_scan_lock None τ))).
  { intros τ Hτ. simpl. unfold step_handler. rewrite Hτ. reflexivity. }
  assert (Hrej : forall τ, handlers τ !! i = Some AtReject ->
            run (handler_steps i 1) τ
            = Some (set_handler i (Responded rejected) (set_scan_lock None τ))).
  { intros τ Hτ. simpl. unfold step_handler. rewrite Hτ. reflexivity. }
  assert (Hset : forall τ, handlers τ !! i = Some AtSet ->
            exists τ', run (handler_steps i 2) τ = Some τ'
                       /\ scan_lock τ' = None).
  { intros τ Hτ.
    set (τ1 := set_handler i AtWithExit
                 (set_machine
                    (snd (set_scan_in_progress (R:=unit) true (machine τ))) τ)).
    assert (H1 : run (handler_steps i 1) τ = Some τ1).
    { simpl. unfold step_handler. rewrite Hτ. reflexivity. }
    exists (set_handler i AtThreadStart (set_scan_lock None τ1)).
    split; [|reflexivity].
    change (handler_steps i 2) with (handler_steps i 1 ++ handler_steps i 1).
    rewrite (run_app _ _ _ _ H1).
    apply Hexit. unfold τ1. cbn [handlers set_handler set_machine].
    eapply lookup_set_same. exact Hτ. }
  destruct pc; try discriminate.
  - (* at the test *)
    assert (Htest : run (handler_steps i 1) σ
              = Some (set_handler i
                        (if scan_in_progress (fst (machine σ))
                         then AtReject else AtSet) σ)).
    { simpl. unfold step_handler. rewrite Hi. reflexivity. }
    destruct (scan_in_progress (fst (machine σ))).
    + exists 2%nat. eexists. split; [lia|]. split.
      * change (handler_steps i 2) with (handler_steps i 1 ++ handler_steps i 1).
        rewrite (run_app _ _ _ _ Htest).
        apply Hrej. cbn [handlers set_handler]. eapply lookup_set_same. exact Hi.
      * reflexivity.
    + destruct (Hset (set_handler i AtSet σ)) as (τ' & Hrun & Hnone).
      { cbn [handlers set_handler]. eapply lookup_set_same. exact Hi. }
      exists 3%nat, τ'. split; [lia|]. split; [|exact Hnone].
      change (handler_steps i 3) with (handler_steps i 1 ++ handler_steps i 2).
      rewrite (run_app _ _ _ _ Htest). exact Hrun.
  - exists 1%nat. eexists. split; [lia|]. split; [apply Hrej; exact Hi|reflexivity].
  - destruct (Hset σ Hi) as (τ' & Hrun & Hnone).
    exists 2%nat, τ'. split; [lia|]. auto.
  - exists 1%nat. eexists. split; [lia|]. split; [apply Hexit; exact Hi|reflexivity].
Qed.

Lemma snoc_lookup {A} (l : list A) (x : A) : (l ++ [x]) !! length l = Some x.
Proof. induction l as [|y l IH]; simpl; [reflexivity|exact IH]. Qed.

Lemma snoc_insert {A} (l : list A) (x y : A) :
  <[length l := y]> (l ++ [x]) = l ++ [y].
Proof. induction l as [|z l IH]; simpl; [reflexivity|]. f_equal. exact IH. Qed.

(** One statement of the handler that arrived last. *)
Ltac last_handler_step :=
  cbn [Server.run Server.step]; unfold step_handler at 1;
  cbn [handlers scan_lock machine pipelines set_handler set_scan_lock
       set_machine add_pipeline add_handler];
  rewrite ?snoc_insert; rewrite snoc_lookup;
  cbn [handlers scan_lock machine pipelines set_handler set_scan_lock
       set_machine add_pipeline add_handler];
  rewrite ?snoc_insert.

(** A trigger handled alone, with the lock free: when the flag is set, the
    request is rejected after three statements and nothing else changes;
    when it is clear, the request is accepted after six statements, the
    flag is set, one thread is started, the stored result is untouched and
    the lock is free again. *)
Theorem trigger_alone :
  forall (σ : System),
    scan_lock σ = None ->
    (flag σ = true ->
     run (Request :: handler_steps (length (handlers σ)) 3) σ
     = Some {| machine := machine σ; scan_lock := None;
               handlers := handlers σ ++ [Responded rejected];
               pipelines := pipelines σ |})
    /\ (flag σ = false ->
        run (Request :: handler_steps (length (handlers σ)) 6) σ
        = Some {| machine :=
                    ({| last_scan_result := last_scan_result (fst (machine σ));
                        scan_in_progress := true |}, snd (machine σ));
                  scan_lock := None;
                  handlers := handlers σ ++ [Responded accepted];
                  pipelines := pipelines σ ++ [InTry] |}).
Proof.
  intros [m lk hs ps] Hl. unfold flag. cbn [machine scan_lock handlers pipelines] in *.
  subst lk. unfold handler_steps. cbn [repeat].
  split; intros Hflag.
  - cbn [Server.run Server.step add_handler].
    do 2 last_handler_step. rewrite Hflag. last_handler_step.
    cbn [Server.run]; f_equal;
      unfold set_handler, set_scan_lock, set_machine, add_pipeline, add_handler;
      cbn [handlers scan_lock machine pipelines]; rewrite ?snoc_insert;
      reflexivity.
  - cbn [Server.run Server.step add_handler].
    do 2 last_handler_step. rewrite Hflag. do 4 last_handler_step.
    cbn [Server.run]; f_equal;
      unfold set_handler, set_scan_lock, set_machine, add_pipeline, add_handler;
      cbn [handlers scan_lock machine pipelines]; rewrite ?snoc_insert;
      reflexivity.
Qed.

(** Every state the server reaches is sound: its pipeline threads have let
    no exception out (a thread that has ended has returned normally), and
    the stored result is the initial one or a result of one of the two
    forms that [perform_scan] stores. *)
Theorem threads_and_result_sound :
  forall (w : World) (σ : System),
    reachable w σ ->
    Forall thread_sound (pipelines σ)
    /\ (last_scan_result (fst (machine σ)) = last_scan_result initial_globals
        \/ well_formed_result (last_scan_result (fst (machine σ)))).
Proof.
  intros w σ [evs Hrun].
  set (P := fun τ : System =>
         Forall thread_sound (pipelines τ)
         /\ (last_scan_result (fst (machine τ)) = last_scan_result initial_globals
             \/ well_formed_result (last_scan_result (fst (machine τ))))).
  assert (Hstep : forall ev τ τ', P τ -> step ev τ = Some τ' -> P τ').
  { intros ev τ τ' [Hth Hres] Hs. destruct ev as [|i|j]; simpl in Hs.
    - injection Hs as <-. split; assumption.
    - unfold step_handler in Hs.
      destruct (handlers τ !! i) as [[| | | | | | |r]|]; try discriminate;
        [destruct (scan_lock τ); [discriminate|]| | | | | |];
        injection Hs as <-; (split; [|exact Hres]);
        cbn [pipelines set_handler set_scan_lock set_machine add_pipeline];
        try exact Hth.
      apply Forall_app. split; [exact Hth|]. repeat constructor.
    - unfold Server.step_pipeline in Hs.
      destruct (pipelines τ !! j) as [[|c|o]|] eqn:Hj; try discriminate.
      + pose proof (AppMore.perform_scan_try_sound capture_and_process_image
                      ocr_image (machine τ)) as [Hc Hwf].
        destruct (perform_scan_try _ _ (machine τ)) as [c m].
        injection Hs as <-. cbn [fst snd] in *. split.
        * cbn [pipelines set_pipeline set_machine].
          apply Forall_insert; [exact Hth|exact Hc].
        * right. exact Hwf.
      + pose proof (Forall_lookup_1 _ _ _ _ Hth Hj) as Hc. simpl in Hc.
        assert (Hfin : def tt (finally_ c perform_scan_finally) (machine τ)
                       = (Val tt,
                          ({| last_scan_result := last_scan_result (fst (machine τ));
                              scan_in_progress := false |}, snd (machine τ)))).
        { destruct c as [[]|[]|e]; [reflexivity|reflexivity|].
          destruct (Hc e eq_refl). }
        rewrite Hfin in Hs. injection Hs as <-. split.
        * cbn [pipelines set_pipeline set_machine].
          apply Forall_insert; [exact Hth|reflexivity].
        * exact Hres. }
  assert (Hruns : forall evs0 τ τ', P τ -> run evs0 τ = Some τ' -> P τ').
  { intros evs0. induction evs0 as [|ev evs' IH]; intros τ τ' HP Hr;
      simpl in Hr.
    - injection Hr as <-. exact HP.
    - destruct (step ev τ) as [τ1|] eqn:Hs; [|discriminate].
      eapply IH; [|exact Hr]. eapply Hstep; eauto. }
  apply (Hruns evs (initial w) σ); [|exact Hrun].
  split; [constructor|left; reflexivity].
Qed.
End Collaborators.

(** The sample server: the modules as they are written, at the sample
    world. *)
Lemma one_handler_in_the_block_witness :
  exists σ,
    Server.run (Scanner.capture_and_process_image Samples.lib Scanner.module_globals)
      (OcrProcessor.ocr_image Samples.lib) [Request; Handler 0]
      (initial Samples.world) = Some σ
    /\ handlers σ !! 0%nat = Some AtTest
    /\ 0%nat = 0%nat.
Proof.
  destruct (Server.run
              (Scanner.capture_and_process_image Samples.lib Scanner.module_globals)
              (OcrProcessor.ocr_image Samples.lib) [Request; Handler 0%nat]
              (initial Samples.world)) as [σ|] eqn:Hrun;
    [|vm_compute in Hrun; discriminate Hrun].
  exists σ. split; [reflexivity|].
  assert (Hh : handlers σ !! 0%nat = Some AtTest).
  { vm_compute in Hrun. injection Hrun as <-. reflexivity. }
  split; [exact Hh|].
  exact (one_handler_in_the_block _ _ Samples.world σ 0%nat 0%nat AtTest AtTest
           (ex_intro _ [Request; Handler 0%nat] Hrun) Hh eq_refl Hh eq_refl).
Defined.

Lemma flag_clear_iff_idle_witness : flag (initial Samples.world) = false.
Proof.
  apply (proj2 (flag_clear_iff_idle
                  (Scanner.capture_and_process_image Samples.lib
                     Scanner.module_globals)
                  (OcrProcessor.ocr_image Samples.lib)
                  Samples.world (initial Samples.world)
                  (ex_intro _ [] eq_refl))).
  split; [reflexivity|]. intros i pc Hi. destruct i; discriminate Hi.
Defined.

Lemma lock_is_given_up_witness :
  exists σ k σ',
    Server.run (Scanner.capture_and_process_image Samples.lib Scanner.module_globals)
      (OcrProcessor.ocr_image Samples.lib) [Request; Handler 0]
      (initial Samples.world) = Some σ
    /\ scan_lock σ = Some 0%nat
    /\ (k <= 3)%nat
    /\ Server.run (Scanner.capture_and_process_image Samples.lib
                     Scanner.module_globals)
         (OcrProcessor.ocr_image Samples.lib) (handler_steps 0 k) σ = Some σ'
    /\ scan_lock σ' = None.
Proof.
  eexists. 
  destruct (lock_is_given_up
              (Scanner.capture_and_process_image Samples.lib Scanner.module_globals)
              (OcrProcessor.ocr_image Samples.lib) Samples.world
              _ 0%nat (ex_intro _ [Request; Handler 0%nat] eq_refl) eq_refl)
    as (k & σ' & Hk & Hrun & Hnone).
  exists k, σ'. repeat split; assumption.
Defined.

Lemma trigger_alone_witness :
  Server.run (Scanner.capture_and_process_image Samples.lib Scanner.module_globals)
    (OcrProcessor.ocr_image Samples.lib) (Request :: handler_steps 0 6)
    (initial Samples.world)
  = Some {| machine :=
              ({| last_scan_result := last_scan_result initial_globals;
                  scan_in_progress := true |}, Samples.world);
            scan_lock := None;
            handlers := [Responded accepted];
            pipelines := [InTry] |}
  /\ Server.run
       (Scanner.capture_and_process_image Samples.lib Scanner.module_globals)
       (OcrProcessor.ocr_image Samples.lib) (Request :: handler_steps 1 3)
       {| machine :=
            ({| last_scan_result := last_scan_result initial_globals;
                scan_in_progress := true |}, Samples.world);
          scan_lock := None;
          handlers := [Responded accepted];
          pipelines := [InTry] |}
     = Some {| machine :=
                 ({| last_scan_result := last_scan_result initial_globals;
                     scan_in_progress := true |}, Samples.world);
               scan_lock := None;
               handlers := [Responded accepted; Responded rejected];
               pipelines := [InTry] |}.
Proof.
  split.
  - apply (proj2 (trigger_alone
                    (Scanner.capture_and_process_image Samples.lib
                       Scanner.module_globals)
                    (OcrProcessor.ocr_image Samples.lib)
                    (initial Samples.world) eq_refl)).
    reflexivity.
  - apply (proj1 (trigger_alone
                    (Scanner.capture_and_process_image Samples.lib
                       Scanner.module_globals)
                    (OcrProcessor.ocr_image Samples.lib)
                    {| machine :=
                         ({| last_scan_result := last_scan_result initial_globals;
                             scan_in_progress := true |}, Samples.world);
                       scan_lock := None;
                       handlers := [Responded accepted];
                       pipelines := [InTry] |} eq_refl)).
    reflexivity.
Defined.

Lemma threads_and_result_sound_witness :
  exists σ,
    Server.run (Scanner.capture_and_process_image Samples.lib Scanner.module_globals)
      (OcrProcessor.ocr_image Samples.lib)
      (Samples.schedule ++ [Pipeline 0]) (initial Samples.world) = Some σ
    /\ Forall thread_sound (pipelines σ)
    /\ (last_scan_result (fst (machine σ)) = last_scan_result initial_globals
        \/ well_formed_result (last_scan_result (fst (machine σ)))).
Proof.
  destruct (Server.run
              (Scanner.capture_and_process_image Samples.lib Scanner.module_globals)
              (OcrProcessor.ocr_image Samples.lib)
              (Samples.schedule ++ [Pipeline 0%nat]) (initial Samples.world))
    as [σ|] eqn:Hrun; [|vm_compute in Hrun; discriminate Hrun].
  exists σ. split; [reflexivity|].
  exact (threads_and_result_sound _ _ Samples.world σ
           (ex_intro _ (Samples.schedule ++ [Pipeline 0%nat]) Hrun)).
Defined.

End ServerMore.

(** ** The modules together, as they are written *)

Module AsWritten.
Import Py Env App Logic Notions Server ScannerFacts PipelineFacts.

(** The [try] part of [perform_scan] over the capture of scanner.py: it
    leaves by the [return] of the capture failure. *)
Lemma perform_scan_try_as_written (lib : Libs)
    (ocr : option string -> string -> string
           -> F World (option string * option string))
    (g : Globals) (w : World) :
  exists e w1,
    perform_scan_try
      (Scanner.capture_and_process_image lib Scanner.module_globals) ocr (g, w)
    = (Return tt,
       (publish (scan_result "" (clock w) false
                   (VStr ("Capture failed: " +:+ e))) g, w1))
    /\ e <> EmptyString /\ files w1 = files w.
Proof.
  destruct (capture_returns lib Scanner.module_globals CAMERA_INDEX
              CAMERA_RESOLUTION SCAN_TIMEOUT w)
    as (r & w1 & Hrun & _ & Hclock & [Hok | Hfail]).
  - destruct Hok as (p & img & _ & _ & Htime). destruct (time_not_bound Htime).
  - destruct Hfail as (e & -> & He & Hfiles). exists e, w1.
    rewrite perform_scan_try_eq, Hrun.
    destruct e as [|c e]; [congruence|]. cbn [truthy fmt]. rewrite Hclock.
    auto.
Qed.

(** The status route over the probe of scanner.py: the probe never raises,
    so that the report is the online or the offline one, never the one with
    status "error"; the flag is reported as it is, and the files and the
    clock are left alone. *)
Theorem status_never_reports_an_error :
  forall (G : list string) (g : Globals) (w : World),
    exists b w1,
      Scanner.check_camera_available G CAMERA_INDEX w = (Val b, w1)
      /\ Routes.status (Scanner.check_camera_available G) (g, w)
         = (Val (Response
                   (<["scan_in_progress" := VBool (scan_in_progress g)]>
                      (camera_report b)) 200), (g, w1))
      /\ disk w1 = disk w.
Proof.
  intros G g w.
  pose proof (ScannerMore.check_camera_available_spec G CAMERA_INDEX w) as H.
  unfold fwp in H.
  destruct (Scanner.check_camera_available G CAMERA_INDEX w) as [o w1] eqn:Hb.
  cbn [fst snd] in H. destruct H as [[b ->] Hd].
  exists b, w1. split; [reflexivity|]. split; [|exact Hd].
  unfold Routes.status, get_camera_status, def_total, try_except, bind, outer,
    invoke, gets, return_.
  cbn [fst snd]. rewrite Hb. destruct b; reflexivity.
Qed.

(** The pipeline over scanner.py as it is written: every scan ends with a
    capture failure stored, time-stamped with the clock at the start, and
    the flag cleared; no file is written and the recognition is not
    called. *)
Theorem pipeline_as_written_fails_at_capture :
  forall (lib : Libs)
         (ocr ocr' : option string -> string -> string
                     -> F World (option string * option string))
         (g : Globals) (w : World),
    exists e w1,
      perform_scan
        (Scanner.capture_and_process_image lib Scanner.module_globals) ocr (g, w)
      = (Val tt,
         ({| last_scan_result :=
               scan_result "" (clock w) false (VStr ("Capture failed: " +:+ e));
             scan_in_progress := false |}, w1))
      /\ e <> EmptyString
      /\ files w1 = files w
      /\ perform_scan
           (Scanner.capture_and_process_image lib Scanner.module_globals) ocr'
           (g, w)
         = perform_scan
             (Scanner.capture_and_process_image lib Scanner.module_globals) ocr
             (g, w).
Proof.
  intros lib ocr ocr' g w.
  destruct (perform_scan_try_as_written lib ocr g w) as (e & w1 & Htry & He & Hf).
  destruct (perform_scan_try_as_written lib ocr' g w)
    as (e' & w1' & Htry' & _ & _).
  assert (Hsame : perform_scan_try
                    (Scanner.capture_and_process_image lib Scanner.module_globals)
                    ocr' (g, w)
                  = perform_scan_try
                      (Scanner.capture_and_process_image lib
                         Scanner.module_globals) ocr (g, w)).
  { rewrite !perform_scan_try_eq.
    rewrite perform_scan_try_eq in Htry.
    destruct (Scanner.capture_and_process_image lib Scanner.module_globals
                CAMERA_INDEX CAMERA_RESOLUTION SCAN_TIMEOUT w)
      as [[[p ce]|x] w2]; [|reflexivity].
    destruct (truthy ce); [reflexivity|].
    destruct (ocr p OCR_LANGUAGE OCR_CONFIG w2) as [[[? ?]|?] ?];
      discriminate Htry. }
  exists e, w1. rewrite !perform_scan_eq, Hsame, Htry. cbn [fst snd publish].
  auto.
Qed.

(** The server over the modules as they are written: in every state it
    reaches, the stored result is the initial one or a capture failure, so
    that [success] is never true, and the files are those it started
    with. *)
Theorem server_as_written_never_succeeds :
  forall (lib : Libs)
         (ocr : option string -> string -> string
                -> F World (option string * option string))
         (w : World) (σ : System),
    Server.reachable
      (Scanner.capture_and_process_image lib Scanner.module_globals) ocr w σ ->
    (last_scan_result (fst (machine σ)) = last_scan_result initial_globals
     \/ capture_failure (last_scan_result (fst (machine σ))))
    /\ last_scan_result (fst (machine σ)) !! "success" = Some (VBool false)
    /\ files (snd (machine σ)) = files w.
Proof.
  intros lib ocr w σ [evs Hrun].
  set (P := fun τ : System =>
         (last_scan_result (fst (machine τ)) = last_scan_result initial_globals
          \/ capture_failure (last_scan_result (fst (machine τ))))
         /\ files (snd (machine τ)) = files w).
  assert (Hstep : forall ev τ τ',
            P τ ->
            Server.step
              (Scanner.capture_and_process_image lib Scanner.module_globals)
              ocr ev τ = Some τ' -> P τ').
  { intros ev τ τ' [Hres Hfiles] Hs. destruct ev as [|i|j]; simpl in Hs.
    - injection Hs as <-. split; assumption.
    - unfold step_handler in Hs.
      destruct (handlers τ !! i) as [[| | | | | | |r]|]; try discriminate;
        [destruct (scan_lock τ); [discriminate|]| | | | | |];
        injection Hs as <-; split; assumption.
    - unfold Server.step_pipeline in Hs.
      destruct (pipelines τ !! j) as [[|c|o]|]; try discriminate.
      + destruct (machine τ) as [g w0] eqn:Hm.
        destruct (perform_scan_try_as_written lib ocr g w0)
          as (e & w1 & Htry & He & Hf).
        rewrite Htry in Hs. injection Hs as <-. cbn [fst snd] in *. split.
        * right. exists e, (clock w0). split; [reflexivity|exact He].
        * cbn [machine set_pipeline set_machine snd]. congruence.
      + destruct (machine τ) as [g w0] eqn:Hm.
        destruct c as [[]|[]|e]; cbn in Hs; injection Hs as <-;
          cbn [fst snd] in *; split; assumption. }
  assert (Hruns : forall evs0 τ τ',
            P τ ->
            Server.run
              (Scanner.capture_and_process_image lib Scanner.module_globals)
              ocr evs0 τ = Some τ' -> P τ').
  { intros evs0. induction evs0 as [|ev evs' IH]; intros τ τ' HP Hr;
      simpl in Hr.
    - injection Hr as <-. exact HP.
    - destruct (Server.step _ _ ev τ) as [τ1|] eqn:Hs; [|discriminate].
      eapply IH; [|exact Hr]. eapply Hstep; eauto. }
  destruct (Hruns evs (initial w) σ) as [Hres Hfiles];
    [split; [left|]; reflexivity|exact Hrun|].
  split; [exact Hres|]. split; [|exact Hfiles].
  destruct Hres as [-> | (e & now & -> & _)]; reflexivity.
Qed.

(** At the sample world, after the two requests of the sample schedule and
    the end of the thread. *)
Lemma server_as_written_never_succeeds_witness :
  exists σ,
    Server.run (Scanner.capture_and_process_image Samples.lib Scanner.module_globals)
      (OcrProcessor.ocr_image Samples.lib)
      (Samples.schedule ++ [Pipeline 0]) (initial Samples.world) = Some σ
    /\ (last_scan_result (fst (machine σ)) = last_scan_result initial_globals
        \/ capture_failure (last_scan_result (fst (machine σ))))
    /\ last_scan_result (fst (machine σ)) !! "success" = Some (VBool false)
    /\ files (snd (machine σ)) = files Samples.world.
Proof.
  destruct (Server.run
              (Scanner.capture_and_process_image Samples.lib Scanner.module_globals)
              (OcrProcessor.ocr_image Samples.lib)
              (Samples.schedule ++ [Pipeline 0%nat]) (initial Samples.world))
    as [σ|] eqn:Hrun; [|vm_compute in Hrun; discriminate Hrun].
  exists σ. split; [reflexivity|].
  exact (server_as_written_never_succeeds Samples.lib
           (OcrProcessor.ocr_image Samples.lib) Samples.world σ
           (ex_intro _ (Samples.schedule ++ [Pipeline 0%nat]) Hrun)).
Defined.

End AsWritten.
